(** * Structured logger with trace-id propagation: a shallow embedding

    The development follows [out_of_sync_report/logger.py] (class
    [EnvironmentLogger], its nested [CustomFormatter], [get_logger]) and
    [rmr_forecast/trace_utils.py] ([setup_trace_id]).

    Conventions of the embedding:
    - a Python [str] is a [string]; one [ascii] stands for one code point,
      so the strings of the model are those over the code points 0..255;
    - a [dict] read by key is a [gmap]; a [dict] whose insertion order is
      observable ([log_data], serialised by [json.dumps]) is an association
      list;
    - [Optional[str]] is [option string];
    - the mutable logger object, the output stream and raised exceptions are
      threaded by a small state-and-error monad: the formatter reads the
      logger object as it is at the time the handler runs;
    - what a call reads from its surroundings (environment variables, the
      clock, the exception being handled, the process id, the host name, a
      fresh UUID) is an argument of the function that models it;
    - a logging method is the call [method(message, trace_id, **kwargs)]:
      [kwargs] holds the other keywords of the call, and a key of it that
      names a parameter filled by position makes the call raise
      [TypeError], as Python does when it binds the arguments;
    - the standard library is modelled as far as the sources depend on it
      ([logging], [json.dumps], [str] methods); where [logging] differs
      between interpreters (the attribute [taskName] of a record, from
      Python 3.12 on) the interpreter is an argument too;
    - the [logging.Logger] of a name is one object for the process: a
      single logger is modelled with the attributes of that object beside
      its own, and [Registry] models several loggers sharing it. *)

From Stdlib Require Import ZArith String Ascii List Lia.
From Stdlib Require Import DecimalString DecimalPos DecimalZ.
From stdpp Require Import gmap strings list fin_maps.

Local Open Scope Z_scope.

(** ** Python [str] operations used by the sources *)

Module PyStr.

Definition code (c : ascii) : N := N_of_ascii c.

(** [str.lower] on one code point: A-Z and the upper-case letters of the
    Latin-1 block (U+00C0..U+00DE without the multiplication sign). *)
Definition lower_char (c : ascii) : ascii :=
  let n := code c in
  if ((65 <=? n) && (n <=? 90))%N
     || ((192 <=? n) && (n <=? 222) && negb (n =? 215))%N
  then ascii_of_N (n + 32) else c.

Fixpoint lower (s : string) : string :=
  match s with
  | EmptyString => EmptyString
  | String c r => String (lower_char c) (lower r)
  end.

(** [str.upper] on one code point.  The three code points below 256 whose
    upper-case form leaves the range (U+00B5, U+00DF, U+00FF) are kept:
    none of their images occurs in a name of the [logging] module. *)
Definition upper_char (c : ascii) : ascii :=
  let n := code c in
  if ((97 <=? n) && (n <=? 122))%N
     || ((224 <=? n) && (n <=? 254) && negb (n =? 247))%N
  then ascii_of_N (n - 32) else c.

Fixpoint upper (s : string) : string :=
  match s with
  | EmptyString => EmptyString
  | String c r => String (upper_char c) (upper r)
  end.

(** [str.isspace] on one code point: TAB..CR, FS..US, SPACE, NEL, NBSP. *)
Definition isspace (c : ascii) : bool :=
  let n := code c in
  (((9 <=? n) && (n <=? 13)) || ((28 <=? n) && (n <=? 32))
   || (n =? 133) || (n =? 160))%N.

Fixpoint lstrip (s : string) : string :=
  match s with
  | EmptyString => EmptyString
  | String c r => if isspace c then lstrip r else s
  end.

Fixpoint rstrip (s : string) : string :=
  match s with
  | EmptyString => EmptyString
  | String c r =>
      match rstrip r with
      | EmptyString => if isspace c then EmptyString else String c EmptyString
      | r' => String c r'
      end
  end.

(** [s.strip()] *)
Definition strip (s : string) : string := rstrip (lstrip s).

(** [p in s] for two strings. *)
Fixpoint contains (p s : string) : bool :=
  String.prefix p s
  || match s with
     | EmptyString => false
     | String _ r => contains p r
     end.

(** Truthiness of a string, and of an optional string ([None] and [''] are
    falsy). *)
Definition nonempty (s : string) : bool :=
  match s with EmptyString => false | String _ _ => true end.

Definition truthy (o : option string) : bool :=
  match o with None => false | Some s => nonempty s end.

(** [a or b] on optional strings. *)
Definition py_or (a b : option string) : option string :=
  if truthy a then a else b.

(** [str(n)] for an [int]. *)
Definition str_of_int (n : Z) : string := NilZero.string_of_int (Z.to_int n).

Fixpoint zeros (n : nat) : string :=
  match n with O => EmptyString | S k => String "0" (zeros k) end.

(** [s.zfill(width)]: left-pad with zeros, after a leading sign if any. *)
Definition zfill (s : string) (width : nat) : string :=
  let fill := zeros (width - String.length s) in
  match s with
  | String c r =>
      if (Ascii.eqb c "+" || Ascii.eqb c "-")%bool
      then String c (fill +:+ r) else fill +:+ s
  | EmptyString => fill
  end.

(** [''.join(l)] *)
Definition join (l : list string) : string :=
  fold_right String.append EmptyString l.

(** [l[-n:]] for [n > 0]. *)
Definition last_n {A} (n : nat) (l : list A) : list A :=
  skipn (length l - n) l.

End PyStr.

(** ** Environment classifier *)

Module Classifier.
Import PyStr.

Definition ENV_MAPPING : gmap string string :=
  <["development" := "development"]>
    (<["staging" := "staging"]>
       (<["hotfixes" := "hotfixes"]>
          (<["production" := "production"]> ∅))).

(** Body of the [for] loop of [_detect_environment] for a truthy
    [env_var]: every branch returns. *)
Definition classify_signal (env_var : string) : string :=
  if contains "lambda" (lower env_var) then
    if contains "prod" (lower env_var) || contains "production" (lower env_var)
    then "production"
    else if contains "staging" (lower env_var) || contains "stage" (lower env_var)
    then "staging"
    else if contains "hotfix" (lower env_var)
    then "hotfixes"
    else "development"
  else
    let env_lower := strip (lower env_var) in
    default "development" (ENV_MAPPING !! env_lower).

(** [for env_var in env_sources: if env_var: ... return ...] followed by
    the final [return 'development']. *)
Fixpoint detect_loop (env_sources : list (option string)) : string :=
  match env_sources with
  | [] => "development"
  | env_var :: rest =>
      match env_var with
      | Some v => if nonempty v then classify_signal v else detect_loop rest
      | None => detect_loop rest
      end
  end.

(** [os.environ] is a finite map; [os.getenv k] is its lookup. *)
Definition env_sources (environ : gmap string string) : list (option string) :=
  [ environ !! "ENVIRONMENT";
    environ !! "ENV";
    environ !! "STAGE";
    environ !! "AWS_LAMBDA_FUNCTION_NAME";
    Some "development" ].

Definition _detect_environment (environ : gmap string string) : string :=
  detect_loop (env_sources environ).

End Classifier.

(** ** [json.dumps(log_data, ensure_ascii=False)] *)

Module Json.
Import PyStr.

(** The values that occur in [log_data]: [None], an [int], a [str]. *)
Inductive value :=
| JNull
| JInt (n : Z)
| JStr (s : string).

Definition dquote : ascii := ascii_of_N 34.
Definition backslash : ascii := ascii_of_N 92.

Definition hex_digit (n : N) : ascii :=
  if (n <? 10)%N then ascii_of_N (48 + n) else ascii_of_N (87 + n).

(** [ESCAPE_DCT] of [json.encoder]: the two-character escapes, and
    [\u00xx] for the other code points below 0x20.  With
    [ensure_ascii=False] every other code point is written as it is. *)
Definition escape_char (c : ascii) : string :=
  let n := code c in
  if (n =? 34)%N then String backslash (String dquote EmptyString)
  else if (n =? 92)%N then String backslash (String backslash EmptyString)
  else if (n =? 8)%N then String backslash "b"
  else if (n =? 12)%N then String backslash "f"
  else if (n =? 10)%N then String backslash "n"
  else if (n =? 13)%N then String backslash "r"
  else if (n =? 9)%N then String backslash "t"
  else if (n <? 32)%N then
    String backslash
      (String "u" (String "0" (String "0"
         (String (hex_digit (n / 16)) (String (hex_digit (n mod 16)) EmptyString)))))
  else String c EmptyString.

Fixpoint escape (s : string) : string :=
  match s with
  | EmptyString => EmptyString
  | String c r => escape_char c +:+ escape r
  end.

Definition dumps_string (s : string) : string :=
  String dquote (escape s +:+ String dquote EmptyString).

Definition dumps_value (v : value) : string :=
  match v with
  | JNull => "null"
  | JInt n => str_of_int n
  | JStr s => dumps_string s
  end.

Definition dumps_item (kv : string * value) : string :=
  dumps_string kv.1 +:+ ": " +:+ dumps_value kv.2.

(** Items are separated by [", "], key and value by [": "]. *)
Fixpoint dumps_items (d : list (string * value)) : string :=
  match d with
  | [] => EmptyString
  | [kv] => dumps_item kv
  | kv :: rest => dumps_item kv +:+ ", " +:+ dumps_items rest
  end.

Definition dumps (d : list (string * value)) : string :=
  "{" +:+ dumps_items d +:+ "}".

(** *** Reading a line back

    A reader for the documents [dumps] writes: one object whose members
    are a string, [null] or an integer, in the layout of [json.dumps]
    (members separated by a comma and a space, key and value by a colon
    and a space). *)

Definition hex_val (c : ascii) : option N :=
  let n := code c in
  if ((48 <=? n) && (n <=? 57))%N then Some (n - 48)%N
  else if ((97 <=? n) && (n <=? 102))%N then Some (n - 87)%N
  else if ((65 <=? n) && (n <=? 70))%N then Some (n - 55)%N
  else None.

(** The character after a backslash, for the two-character escapes. *)
Definition unescape (e : ascii) : option ascii :=
  let n := code e in
  if (n =? 34)%N then Some dquote
  else if (n =? 92)%N then Some backslash
  else if (n =? 47)%N then Some "/"%char
  else if (n =? 98)%N then Some (ascii_of_N 8)
  else if (n =? 102)%N then Some (ascii_of_N 12)
  else if (n =? 110)%N then Some (ascii_of_N 10)
  else if (n =? 114)%N then Some (ascii_of_N 13)
  else if (n =? 116)%N then Some (ascii_of_N 9)
  else None.

Definition cons_char (c : ascii) (p : option (string * string))
  : option (string * string) :=
  match p with
  | Some (t, rest) => Some (String c t, rest)
  | None => None
  end.

(** The characters of a string literal after its opening quote: the
    decoded string and what follows the closing quote. *)
Fixpoint parse_chars (s : string) : option (string * string) :=
  match s with
  | EmptyString => None
  | String c r =>
      if Ascii.eqb c dquote then Some (EmptyString, r)
      else if Ascii.eqb c backslash then
        match r with
        | EmptyString => None
        | String e r1 =>
            if Ascii.eqb e "u" then
              match r1 with
              | String h1 (String h2 (String h3 (String h4 r2))) =>
                  match hex_val h1, hex_val h2, hex_val h3, hex_val h4 with
                  | Some a, Some b, Some x, Some y =>
                      let n := (((a * 16 + b) * 16 + x) * 16 + y)%N in
                      if (n <? 256)%N
                      then cons_char (ascii_of_N n) (parse_chars r2)
                      else None
                  | _, _, _, _ => None
                  end
              | _ => None
              end
            else
              match unescape e with
              | Some c' => cons_char c' (parse_chars r1)
              | None => None
              end
        end
      else if (code c <? 32)%N then None
      else cons_char c (parse_chars r)
  end.

Definition digit_of (c : ascii) : option (Decimal.uint -> Decimal.uint) :=
  let n := code c in
  if (n =? 48)%N then Some Decimal.D0
  else if (n =? 49)%N then Some Decimal.D1
  else if (n =? 50)%N then Some Decimal.D2
  else if (n =? 51)%N then Some Decimal.D3
  else if (n =? 52)%N then Some Decimal.D4
  else if (n =? 53)%N then Some Decimal.D5
  else if (n =? 54)%N then Some Decimal.D6
  else if (n =? 55)%N then Some Decimal.D7
  else if (n =? 56)%N then Some Decimal.D8
  else if (n =? 57)%N then Some Decimal.D9
  else None.

(** The longest run of digits at the head of [s]. *)
Fixpoint parse_digits (s : string) : Decimal.uint * string :=
  match s with
  | EmptyString => (Decimal.Nil, s)
  | String c r =>
      match digit_of c with
      | Some d => let '(u, rest) := parse_digits r in (d u, rest)
      | None => (Decimal.Nil, s)
      end
  end.

Definition parse_int (s : string) : option (Z * string) :=
  match s with
  | String c r =>
      if Ascii.eqb c "-" then
        match parse_digits r with
        | (Decimal.Nil, _) => None
        | (u, rest) => Some (Z.of_int (Decimal.Neg u), rest)
        end
      else
        match parse_digits s with
        | (Decimal.Nil, _) => None
        | (u, rest) => Some (Z.of_int (Decimal.Pos u), rest)
        end
  | EmptyString => None
  end.

(** [expect p s]: [s] without its prefix [p]. *)
Fixpoint expect (p s : string) : option string :=
  match p with
  | EmptyString => Some s
  | String a p' =>
      match s with
      | String b s' => if Ascii.eqb a b then expect p' s' else None
      | EmptyString => None
      end
  end.

Definition parse_value (s : string) : option (value * string) :=
  match s with
  | EmptyString => None
  | String c r =>
      if Ascii.eqb c dquote then
        match parse_chars r with
        | Some (t, rest) => Some (JStr t, rest)
        | None => None
        end
      else if Ascii.eqb c "n" then
        match expect "ull" r with
        | Some rest => Some (JNull, rest)
        | None => None
        end
      else
        match parse_int s with
        | Some (n, rest) => Some (JInt n, rest)
        | None => None
        end
  end.

Definition parse_item (s : string) : option ((string * value) * string) :=
  match s with
  | String c r =>
      if Ascii.eqb c dquote then
        '(k, r1) ← parse_chars r;
        r2 ← expect ": " r1;
        '(v, r3) ← parse_value r2;
        Some ((k, v), r3)
      else None
  | EmptyString => None
  end.

(** Members up to the closing brace; every member uses one unit of
    fuel. *)
Fixpoint parse_items (fuel : nat) (s : string)
  : option (list (string * value) * string) :=
  match fuel with
  | O => None
  | S f =>
      '(kv, r) ← parse_item s;
      match expect ", " r with
      | Some r' => '(l, rest) ← parse_items f r'; Some (kv :: l, rest)
      | None => rest ← expect "}" r; Some ([kv], rest)
      end
  end.

Definition loads (s : string) : option (list (string * value)) :=
  r ← expect "{" s;
  match expect "}" r with
  | Some rest =>
      match rest with EmptyString => Some [] | _ => None end
  | None =>
      '(l, rest) ← parse_items (String.length s) r;
      match rest with EmptyString => Some l | _ => None end
  end.

(** [d.get(k)] on a dict kept in insertion order. *)
Fixpoint assoc (k : string) (d : list (string * value)) : option value :=
  match d with
  | [] => None
  | (k', v) :: rest => if String.eqb k k' then Some v else assoc k rest
  end.

Definition keys (d : list (string * value)) : list string := map fst d.

Definition of_opt (o : option string) : value :=
  match o with None => JNull | Some s => JStr s end.

End Json.

(** ** The parts of the standard [logging] module the logger relies on *)

Module Logging.
Import PyStr.

(** Exceptions raised to the caller. *)
Inductive pyerr := AttributeError | ValueError | TypeError | KeyError.

Inductive attr :=
| AInt (n : Z)
| AStr (s : string)
| AOther.

(** [getattr(logging, name)] for the names that [str.upper] leaves
    unchanged; no other attribute of the module can be reached through
    [level.upper()]. *)
Definition module_attrs : gmap string attr :=
  list_to_map
    [ ("CRITICAL", AInt 50); ("FATAL", AInt 50); ("ERROR", AInt 40);
      ("WARNING", AInt 30); ("WARN", AInt 30); ("INFO", AInt 20);
      ("DEBUG", AInt 10); ("NOTSET", AInt 0);
      ("BASIC_FORMAT", AStr "%(levelname)s:%(name)s:%(message)s");
      ("_STYLES", AOther) ].

Definition _nameToLevel : gmap string Z :=
  list_to_map
    [ ("CRITICAL", 50); ("FATAL", 50); ("ERROR", 40); ("WARN", 30);
      ("WARNING", 30); ("INFO", 20); ("DEBUG", 10); ("NOTSET", 0) ].

Definition _checkLevel (level : attr) : pyerr + Z :=
  match level with
  | AInt n => inr n
  | AStr s =>
      match _nameToLevel !! s with
      | Some n => inr n
      | None => inl ValueError
      end
  | AOther => inl TypeError
  end.

(** The five severities of the leveled methods. *)
Inductive Level := DEBUG | INFO | WARNING | ERROR | CRITICAL.

Definition level_number (l : Level) : Z :=
  match l with
  | DEBUG => 10 | INFO => 20 | WARNING => 30 | ERROR => 40 | CRITICAL => 50
  end.

Definition getLevelName (l : Level) : string :=
  match l with
  | DEBUG => "DEBUG" | INFO => "INFO" | WARNING => "WARNING"
  | ERROR => "ERROR" | CRITICAL => "CRITICAL"
  end.

(** Values a keyword argument of a log call takes in the model: [None],
    an [int], a [str], or the logger object making the call. *)
Inductive pyval :=
| VNone
| VInt (n : Z)
| VStr (s : string)
| VSelf.

Definition val_truthy (v : pyval) : bool :=
  match v with
  | VNone => false
  | VInt n => negb (n =? 0)
  | VStr s => nonempty s
  | VSelf => true
  end.

(** An exception object: [type(e).__name__] and [str(e)], raised either
    on its own ([__cause__] is [None]) or [from] another exception.  An
    exception is true in Python unless its class defines [__bool__] or
    [__len__]; [Falsy] and [FalsyFrom] are the exceptions of such a class
    that are false.  Causal chains are finite: a chain that loops (an
    exception raised [from] itself), on which the loop of the formatter
    does not end, is not a value of this type. *)
Inductive exn :=
| Raised (cls : string) (msg : string)
| RaisedFrom (cls : string) (msg : string) (cause : exn)
| Falsy (cls : string) (msg : string)
| FalsyFrom (cls : string) (msg : string) (cause : exn).

Definition type_name (e : exn) : string :=
  match e with
  | Raised c _ | RaisedFrom c _ _ | Falsy c _ | FalsyFrom c _ _ => c
  end.
Definition str_exn (e : exn) : string :=
  match e with
  | Raised _ m | RaisedFrom _ m _ | Falsy _ m | FalsyFrom _ m _ => m
  end.
Definition __cause__ (e : exn) : option exn :=
  match e with
  | Raised _ _ | Falsy _ _ => None
  | RaisedFrom _ _ c | FalsyFrom _ _ c => Some c
  end.

(** [bool(e)] *)
Definition exn_truthy (e : exn) : bool :=
  match e with
  | Raised _ _ | RaisedFrom _ _ _ => true
  | Falsy _ _ | FalsyFrom _ _ _ => false
  end.

(** A non-empty [sys.exc_info()]: the exception being handled, with the
    list [traceback.format_exception(exc_type, exc_value, exc_tb)]. *)
Record exc_triple := {
  exc_value : exn;
  format_exception : list string
}.

(** The attributes of a [LogRecord] that the formatter reads, and the
    entries [makeRecord] copies from [extra] into [record.__dict__].
    [exc_info] is [None], the triple [(None, None, None)] ([Some None]) or
    the triple of an exception. *)
Record LogRecord := {
  name : string;
  levelname : string;
  levelno : Z;
  msg : string;
  module : string;
  funcName : string;
  lineno : Z;
  exc_info : option (option exc_triple);
  extra_dict : gmap string pyval
}.

(** [record.getMessage()], for a record without [args].  [getMessage] is a
    method of the class, not an entry of [record.__dict__]: [makeRecord]
    lets an [extra] entry of that name through, and the entry then hides
    the method.  No value of the model can be called. *)
Definition getMessage (record : LogRecord) : pyerr + string :=
  match extra_dict record !! "getMessage" with
  | Some _ => inl TypeError
  | None => inr (msg record)
  end.

(** The keys [makeRecord] refuses in [extra] with [KeyError]: [message],
    [asctime], and the entries of the [__dict__] of a fresh [LogRecord].
    [taskName] is one of them from Python 3.12 on, and is an ordinary key
    before; [task_names] tells which interpreter runs. *)
Definition reserved_keys (task_names : bool) : list string :=
  [ "message"; "asctime"; "name"; "msg"; "args"; "levelname"; "levelno";
    "pathname"; "filename"; "module"; "exc_info"; "exc_text";
    "stack_info"; "lineno"; "funcName"; "created"; "msecs";
    "relativeCreated"; "thread"; "threadName"; "processName"; "process" ]
  ++ (if task_names then [ "taskName" ] else []).

Definition overwrites (task_names : bool) (extra : gmap string pyval) : bool :=
  existsb (fun k => bool_decide (is_Some (extra !! k)))
    (reserved_keys task_names).

(** A call binds its arguments before its body runs: a keyword that
    names a parameter already filled by position makes the call raise
    [TypeError] (got multiple values for argument). *)
Definition rebinds (parameters : list string) (kwargs : gmap string pyval)
  : bool :=
  existsb (fun k => bool_decide (is_Some (kwargs !! k))) parameters.

(** [logging.getLogger(name).name]: the empty name is the root logger. *)
Definition getLogger_name (n : string) : string :=
  if nonempty n then n else "root".

(** [Logger.getEffectiveLevel]: a logger left at NOTSET inherits.  Nothing
    in the sources calls [logging.disable] or disables a logger, so
    [isEnabledFor] compares the severity with this level. *)
Definition getEffectiveLevel (level parent_level : Z) : Z :=
  if level =? 0 then parent_level else level.

End Logging.

(** ** [EnvironmentLogger] *)

Module Logger.
Import PyStr Classifier Json Logging.

(** The logger object as one of its users sees it: the attributes of the
    [logging.Logger] that [self.logger] refers to (its name, its level,
    the effective level it inherits when left at NOTSET; it has exactly
    one console handler, with the custom formatter, and does not
    propagate), the cached environment and the trace-id slot.  The
    [logging.Logger] is the one object [logging.getLogger] keeps for the
    name: it is shared by every [EnvironmentLogger] built for that name,
    which [Registry] below models; the methods of this module never
    change it. *)
Record EnvironmentLogger := {
  logger_name : string;
  logger_level : Z;
  parent_level : Z;
  environment : string;
  current_trace_id : option string
}.

(** What a call reads from outside the logger: the clock
    ([datetime.now(timezone.utc).isoformat()]), the exception being
    handled ([sys.exc_info()]), and whether the interpreter gives a
    [LogRecord] the attribute [taskName] (Python 3.12 and later). *)
Record ambient := {
  now : string;
  handled : option exc_triple;
  task_names : bool
}.

(** The logger, what its handler has written ([stream], one entry per
    [stream.write(msg + terminator)]), and the errors the handler met
    while formatting, which [Handler.handleError] reports instead of
    raising them. *)
Record state := {
  this : EnvironmentLogger;
  stream : list string;
  reported : list pyerr
}.

Inductive result (A : Type) :=
| Ok (a : A)
| Raise (e : pyerr).
Arguments Ok {A} a.
Arguments Raise {A} e.

(** State and exceptions: a raised exception skips the rest of the body
    and keeps the state reached so far. *)
Definition M (A : Type) : Type := state -> result A * state.

Definition ret {A} (a : A) : M A := fun st => (Ok a, st).

Definition bind {A B} (m : M A) (k : A -> M B) : M B :=
  fun st =>
    match m st with
    | (Ok a, st') => k a st'
    | (Raise e, st') => (Raise e, st')
    end.

Definition raise {A} (e : pyerr) : M A := fun st => (Raise e, st).

Definition get_attr {A} (f : EnvironmentLogger -> A) : M A :=
  fun st => (Ok (f (this st)), st).

Definition set_current_trace_id (t : option string) : M unit :=
  fun st =>
    (Ok tt,
     {| this := {| logger_name := logger_name (this st);
                   logger_level := logger_level (this st);
                   parent_level := parent_level (this st);
                   environment := environment (this st);
                   current_trace_id := t |};
        stream := stream st;
        reported := reported st |}).

Definition write (line : string) : M unit :=
  fun st =>
    (Ok tt,
     {| this := this st;
        stream := stream st ++ [line];
        reported := reported st |}).

Definition handleError (e : pyerr) : M unit :=
  fun st =>
    (Ok tt,
     {| this := this st;
        stream := stream st;
        reported := reported st ++ [e] |}).

Declare Scope py_scope.
Delimit Scope py_scope with py.
Notation "x <~ m ;; k" := (bind m (fun x => k))
  (at level 100, m at next level, k at level 200, right associativity) : py_scope.
Notation "m ;; k" := (bind m (fun _ => k))
  (at level 100, k at level 200, right associativity) : py_scope.
Local Open Scope py_scope.

(** *** [CustomFormatter.format] *)

(** [d[k] = v] on a dict kept in insertion order. *)
Fixpoint dict_set (k : string) (v : value) (d : list (string * value))
  : list (string * value) :=
  match d with
  | [] => [(k, v)]
  | (k', v') :: rest =>
      if String.eqb k k' then (k, v) :: rest else (k', v') :: dict_set k v rest
  end.

(** [getattr(logger_instance, 'current_trace_id', None)]; only the logger
    has the attribute. *)
Definition getattr_current_trace_id (self : EnvironmentLogger) (o : pyval) : value :=
  match o with
  | VSelf => of_opt (current_trace_id self)
  | _ => JNull
  end.

(** [getattr(logger_instance, 'environment', 'unknown')] *)
Definition getattr_environment (self : EnvironmentLogger) (o : pyval) : value :=
  match o with
  | VSelf => JStr (environment self)
  | _ => JStr "unknown"
  end.

(** The loop
    [while root_exc is not None and getattr(root_exc, '__cause__', None)]:
    it goes on to the cause while there is one and it is true. *)
Fixpoint root_exc (e : exn) : exn :=
  match e with
  | Raised _ _ | Falsy _ _ => e
  | RaisedFrom _ _ c | FalsyFrom _ _ c =>
      if exn_truthy c then root_exc c else e
  end.

(** [f(x) if x else None] for an exception [x] or [None]. *)
Definition if_true (f : exn -> string) (x : option exn) : value :=
  match x with
  | Some e => if exn_truthy e then JStr (f e) else JNull
  | None => JNull
  end.

(** [''.join(tb_lines[-10:]).strip() if tb_lines else ''] *)
Definition tb_str (tb_lines : list string) : string :=
  match tb_lines with
  | [] => EmptyString
  | _ => strip (join (last_n 10 tb_lines))
  end.

(** The [if record.exc_info:] block.  A triple is truthy even when its
    three components are [None].  [exc_type] is a class or [None], and a
    class is true; [exc_value] and [root_exc] are tested for truth, not
    for [None]. *)
Definition exception_fields (ei : option exc_triple) (log_data : list (string * value))
  : list (string * value) :=
  let exc_value := option_map exc_value ei in
  let root_exc := option_map root_exc exc_value in
  let tb_lines :=
    match ei with Some t => format_exception t | None => [] end in
  dict_set "traceback" (JStr (tb_str tb_lines))
    (dict_set "root_cause_message" (if_true str_exn root_exc)
       (dict_set "root_cause_type" (if_true type_name root_exc)
          (dict_set "exception_message" (if_true str_exn exc_value)
             (dict_set "exception_type" (of_opt (option_map type_name exc_value))
                log_data)))).

(** The dict [log_data] of [format]; [self] is the logger object as it is
    when the handler formats the record.  Building the dict fails when
    [record.getMessage()] does. *)
Definition log_data (self : EnvironmentLogger) (clock : string) (record : LogRecord)
  : pyerr + list (string * value) :=
  let logger_instance := default VNone (extra_dict record !! "logger_instance") in
  let trace_id :=
    if val_truthy logger_instance
    then getattr_current_trace_id self logger_instance else JNull in
  match getMessage record with
  | inl e => inl e
  | inr message =>
      let base :=
        [ ("timestamp", JStr clock);
          ("level", JStr (levelname record));
          ("environment",
            if val_truthy logger_instance
            then getattr_environment self logger_instance else JStr "unknown");
          ("trace_id", trace_id);
          ("logger", JStr (name record));
          ("message", JStr message);
          ("module", JStr (module record));
          ("function", JStr (funcName record));
          ("line", JInt (lineno record)) ] in
      inr match exc_info record with
          | Some ei => exception_fields ei base
          | None => base
          end
  end.

Definition format (self : EnvironmentLogger) (clock : string) (record : LogRecord)
  : pyerr + string :=
  match log_data self clock record with
  | inl e => inl e
  | inr d => inr (dumps d)
  end.

(** *** The wrapped [logging.Logger] *)

Definition isEnabledFor (self : EnvironmentLogger) (l : Level) : bool :=
  getEffectiveLevel (logger_level self) (parent_level self) <=? level_number l.

(** [StreamHandler.emit]: an exception raised by [format] is handed to
    [handleError] and goes no further. *)
Definition emit (clock : string) (record : LogRecord) : M unit :=
  self <~ get_attr id ;;
  match format self clock record with
  | inr line => write line
  | inl e => handleError e
  end.

(** [Logger._log]: [findCaller] reports the frame that called the method
    of [logging], which is always a line of [logger.py]; [makeRecord]
    raises [KeyError] when [extra] overwrites an attribute; the record goes
    to the single handler. *)
Definition _log (amb : ambient) (l : Level) (message : string)
    (ei : option (option exc_triple)) (extra : gmap string pyval)
    (func : string) (line : Z) : M unit :=
  if overwrites (task_names amb) extra then raise KeyError
  else
    self <~ get_attr id ;;
    emit (now amb)
      {| name := logger_name self; levelname := getLevelName l;
         levelno := level_number l; msg := message; module := "logger";
         funcName := func; lineno := line; exc_info := ei;
         extra_dict := extra |}.

(** [getattr(self.logger, level.lower())(message, extra=extra)]: the method
    [debug], [info], [warning], [error] or [critical] of [logging.Logger],
    each of them
    [if self.isEnabledFor(LEVEL): self._log(LEVEL, msg, args, **kwargs)].
    The call is on line 159, inside [_log_with_context]. *)
Definition Logger_leveled (amb : ambient) (l : Level) (message : string)
    (extra : gmap string pyval) : M unit :=
  self <~ get_attr id ;;
  if isEnabledFor self l
  then _log amb l message None extra "_log_with_context" 159
  else ret tt.

(** [Logger.exception] is [error] with [exc_info=True], which [_log]
    replaces by [sys.exc_info()].  It is reached from line 197, inside
    [exception]. *)
Definition Logger_exception (amb : ambient) (message : string)
    (extra : gmap string pyval) : M unit :=
  self <~ get_attr id ;;
  if isEnabledFor self ERROR
  then _log amb ERROR message (Some (handled amb)) extra "exception" 197
  else ret tt.

(** *** Methods of [EnvironmentLogger] *)

Definition set_trace_id (trace_id : string) : M unit :=
  set_current_trace_id (Some trace_id).

Definition clear_trace_id : M unit :=
  set_current_trace_id None.

(** [{'logger_instance': self, **kwargs}]: a key of [kwargs] replaces the
    entry written before it. *)
Definition make_extra (kwargs : gmap string pyval) : gmap string pyval :=
  kwargs ∪ {["logger_instance" := VSelf]}.

(** The binding of the arguments of a call whose parameters named
    [parameters] are filled by position, [kwargs] being passed as
    [**kwargs]. *)
Definition bind_arguments (parameters : list string)
    (kwargs : gmap string pyval) : M unit :=
  if rebinds parameters kwargs then raise TypeError else ret tt.

(** Each method below is the call [method(message, trace_id, **kwargs)]
    on the logger: [message] and [trace_id] are filled by position, and
    [kwargs] holds every other keyword of the call. *)
Definition _log_with_context (amb : ambient) (level : Level) (message : string)
    (trace_id : option string) (kwargs : gmap string pyval) : M unit :=
  bind_arguments [ "self"; "level"; "message"; "trace_id" ] kwargs ;;
  current <~ get_attr current_trace_id ;;
  let effective_trace_id := py_or trace_id current in
  old_trace_id <~ get_attr current_trace_id ;;
  set_current_trace_id effective_trace_id ;;
  let extra := make_extra kwargs in
  Logger_leveled amb level message extra ;;
  set_current_trace_id old_trace_id.

(** [self._log_with_context('DEBUG', message, trace_id, **kwargs)], and
    the same for the other four: a keyword [level] of the caller is passed
    on beside the positional level. *)
Definition debug amb message trace_id kwargs :=
  bind_arguments [ "self"; "message"; "trace_id" ] kwargs ;;
  _log_with_context amb DEBUG message trace_id kwargs.
Definition info amb message trace_id kwargs :=
  bind_arguments [ "self"; "message"; "trace_id" ] kwargs ;;
  _log_with_context amb INFO message trace_id kwargs.
Definition warning amb message trace_id kwargs :=
  bind_arguments [ "self"; "message"; "trace_id" ] kwargs ;;
  _log_with_context amb WARNING message trace_id kwargs.
Definition error amb message trace_id kwargs :=
  bind_arguments [ "self"; "message"; "trace_id" ] kwargs ;;
  _log_with_context amb ERROR message trace_id kwargs.
Definition critical amb message trace_id kwargs :=
  bind_arguments [ "self"; "message"; "trace_id" ] kwargs ;;
  _log_with_context amb CRITICAL message trace_id kwargs.

Definition exception (amb : ambient) (message : string)
    (trace_id : option string) (kwargs : gmap string pyval) : M unit :=
  bind_arguments [ "self"; "message"; "trace_id" ] kwargs ;;
  current <~ get_attr current_trace_id ;;
  let effective_trace_id := py_or trace_id current in
  old_trace_id <~ get_attr current_trace_id ;;
  set_current_trace_id effective_trace_id ;;
  let extra := make_extra kwargs in
  Logger_exception amb message extra ;;
  set_current_trace_id old_trace_id.

(** *** Construction *)

(** What construction reads from the process: [os.environ], and the
    effective level of the parent loggers. *)
Record world := {
  environ : gmap string string;
  inherited_level : Z
}.

(** [EnvironmentLogger.__init__]:
    [self.logger.setLevel(getattr(logging, level.upper()))] raises
    [AttributeError] for a missing attribute, and [setLevel] checks what
    it is given. *)
Definition __init__ (w : world) (logger_name : string) (level : string)
  : pyerr + EnvironmentLogger :=
  match module_attrs !! upper level with
  | None => inl AttributeError
  | Some a =>
      match _checkLevel a with
      | inl e => inl e
      | inr n =>
          inr {| logger_name := getLogger_name logger_name;
                 logger_level := n;
                 parent_level := inherited_level w;
                 environment := _detect_environment (environ w);
                 current_trace_id := None |}
      end
  end.

Definition get_logger (w : world) (name : string) (level : string)
  : pyerr + EnvironmentLogger :=
  __init__ w name level.

End Logger.

(** ** [trace_utils.setup_trace_id] *)

Module TraceUtils.
Import PyStr Logging Logger.
Local Open Scope py_scope.

(** [os.getpid()], [socket.gethostname()] and [str(uuid.uuid4())]. *)
Record process := {
  getpid : Z;
  gethostname : string;
  uuid4 : string
}.

Definition setup_trace_id (p : process) : M string :=
  let pid := getpid p in
  let hostname := gethostname p in
  let guid := uuid4 p in
  let zero_pad := zfill "0" 16 in
  let trace_id :=
    str_of_int pid +:+ "@" +:+ hostname +:+ "/" +:+ guid +:+ "-" +:+ zero_pad in
  set_trace_id trace_id ;;
  ret trace_id.

End TraceUtils.

(** ** Vocabulary of the statements *)

Module Spec.
Import PyStr Classifier Json Logging Logger.

(** The six logging methods of [EnvironmentLogger]. *)
Inductive method :=
| Leveled (l : Level)
| Exception.

Definition call (m : method)
  : ambient -> string -> option string -> gmap string pyval -> M unit :=
  match m with
  | Leveled DEBUG => debug
  | Leveled INFO => info
  | Leveled WARNING => warning
  | Leveled ERROR => error
  | Leveled CRITICAL => critical
  | Exception => exception
  end.

Definition severity (m : method) : Level :=
  match m with Leveled l => l | Exception => ERROR end.

(** The lines the handler wrote between two states. *)
Definition written (st st' : state) : list string :=
  skipn (length (stream st)) (stream st').

(** A field of a written line, read back from the JSON text. *)
Definition field (k : string) (line : string) : option value :=
  match loads line with
  | Some d => assoc k d
  | None => None
  end.

(** The key list of a written line. *)
Definition keys_of (line : string) : option (list string) :=
  option_map keys (loads line).

(** No code point below 0x20: the text stays on one line. *)
Fixpoint one_line (s : string) : bool :=
  match s with
  | EmptyString => true
  | String c r => (32 <=? code c)%N && one_line r
  end.

(** A string that does not begin with a digit ends a number. *)
Definition ends_number (rest : string) : Prop :=
  match rest with
  | EmptyString => True
  | String c _ => digit_of c = None
  end.

Definition base_keys : list string :=
  [ "timestamp"; "level"; "environment"; "trace_id"; "logger"; "message";
    "module"; "function"; "line" ].

Definition exception_keys : list string :=
  [ "exception_type"; "exception_message"; "root_cause_type";
    "root_cause_message"; "traceback" ].

(** The logger object with another value in its trace-id slot. *)
Definition with_trace_id (t : option string) (self : EnvironmentLogger)
  : EnvironmentLogger :=
  {| logger_name := logger_name self;
     logger_level := logger_level self;
     parent_level := parent_level self;
     environment := environment self;
     current_trace_id := t |}.

(** The [LogRecord] a method hands to the handler. *)
Definition record_of (m : method) (self : EnvironmentLogger) (amb : ambient)
    (message : string) (extra : gmap string pyval) : LogRecord :=
  {| name := logger_name self;
     levelname := getLevelName (severity m);
     levelno := level_number (severity m);
     msg := message;
     module := "logger";
     funcName := match m with Leveled _ => "_log_with_context" | Exception => "exception" end;
     lineno := match m with Leveled _ => 159 | Exception => 197 end;
     exc_info := match m with Leveled _ => None | Exception => Some (handled amb) end;
     extra_dict := extra |}.

(** Keyword fields that do not replace the logger reference. *)
Definition keeps_logger (kwargs : gmap string pyval) : Prop :=
  kwargs !! "logger_instance" = None.

(** The parameters filled by position on the way of a call: those of the
    method, and for a leveled method those of [_log_with_context]. *)
Definition parameters (m : method) : list string :=
  match m with
  | Leveled _ => [ "self"; "level"; "message"; "trace_id" ]
  | Exception => [ "self"; "message"; "trace_id" ]
  end.

(** Keyword fields the call can be made with: none of them names a
    parameter of the call. *)
Definition accepted (m : method) (kwargs : gmap string pyval) : Prop :=
  Forall (fun k => kwargs !! k = None) (parameters m).

(** Keyword fields that, besides keeping the logger reference, name no
    parameter of a logging method or of [_log_with_context], no attribute
    of the record on any interpreter, and not its method [getMessage]. *)
Definition plain (kwargs : gmap string pyval) : Prop :=
  keeps_logger kwargs
  /\ kwargs !! "getMessage" = None
  /\ Forall (fun k => kwargs !! k = None) (parameters (Leveled INFO))
  /\ Forall (fun k => kwargs !! k = None) (reserved_keys true).

(** [r] is where the walk along [__cause__] ends when it starts at [e]:
    the walk goes on to a cause that is true, and stops at an exception
    without cause or with a cause that is false. *)
Inductive root_cause : exn -> exn -> Prop :=
| root_here e :
    (forall c, __cause__ e = Some c -> exn_truthy c = false) ->
    root_cause e e
| root_next e c r :
    __cause__ e = Some c -> exn_truthy c = true -> root_cause c r ->
    root_cause e r.

(** The text lines of a string: its pieces between line feeds. *)
Fixpoint text_lines (s : string) : list string :=
  match s with
  | EmptyString => [EmptyString]
  | String c r =>
      if (code c =? 10)%N then EmptyString :: text_lines r
      else match text_lines r with
           | [] => [String c EmptyString]
           | first :: others => String c first :: others
           end
  end.

(** The candidate the classifier settles on: the first one that is
    neither absent nor empty. *)
Definition selected (sources : list (option string)) (v : string) : Prop :=
  exists before after,
    sources = before ++ Some v :: after
    /\ Forall (fun o => truthy o = false) before
    /\ nonempty v = true.

Definition environments : list string :=
  [ "development"; "staging"; "hotfixes"; "production" ].

(** The level names of [logging], whatever the case of the letters. *)
Definition level_names : list string :=
  [ "CRITICAL"; "FATAL"; "ERROR"; "WARNING"; "WARN"; "INFO"; "DEBUG"; "NOTSET" ].

Definition valid_level (level : string) : Prop :=
  In (upper level) level_names.

End Spec.

(** ** Concrete loggers and calls used in the examples *)

Module Fixtures.
Import PyStr Classifier Json Logging Logger Spec.

Definition newline : string := String (ascii_of_N 10) EmptyString.

(** [get_logger('RMRForecast', 'INFO')] in a process without environment
    variables, after [set_trace_id("X")]. *)
Definition logger_X : EnvironmentLogger :=
  {| logger_name := "RMRForecast";
     logger_level := 20;
     parent_level := 30;
     environment := "development";
     current_trace_id := Some "X" |}.

Definition state_X : state :=
  {| this := logger_X; stream := []; reported := [] |}.

(** The line a call has written, starting from [state_X]. *)
Definition line_of (outcome : result unit * state) : string :=
  hd EmptyString (written state_X outcome.2).

Definition quiet : ambient :=
  {| now := "2026-01-01T00:00:00+00:00"; handled := None;
     task_names := true |}.

(** [raise RuntimeError("outer") from ValueError("inner")], with a
    formatted stack of twelve entries. *)
Definition chained : exn :=
  RaisedFrom "RuntimeError" "outer" (Raised "ValueError" "inner").

Definition twelve_entries : list string :=
  map (fun n => "entry " +:+ str_of_int n +:+ newline)
      [1; 2; 3; 4; 5; 6; 7; 8; 9; 10; 11; 12].

Definition handling : ambient :=
  {| now := "2026-01-01T00:00:00+00:00";
     handled := Some {| exc_value := chained;
                        format_exception := twelve_entries |};
     task_names := true |}.

(** [traceback.format_exception] for [chained] when the [RuntimeError]
    is raised twelve calls deep: the trace of the cause, the sentence
    that links the two, then the heading, one entry of two text lines for
    each frame (where it is, and its source line), and the line of the
    exception. *)
Definition frame (n : Z) : string :=
  "  File " +:+ String dquote "app.py" +:+ String dquote ", line "
  +:+ str_of_int n +:+ ", in step" +:+ newline
  +:+ "    step(depth - 1)" +:+ newline.

Definition deep_stack : list string :=
  [ "Traceback (most recent call last):" +:+ newline;
    frame 40;
    "ValueError: inner" +:+ newline;
    newline +:+ "The above exception was the direct cause of the following exception:"
    +:+ newline +:+ newline;
    "Traceback (most recent call last):" +:+ newline ]
  ++ map frame [1; 2; 3; 4; 5; 6; 7; 8; 9; 10; 11; 12]
  ++ [ "RuntimeError: outer" +:+ newline ].

Definition handling_deep : ambient :=
  {| now := "2026-01-01T00:00:00+00:00";
     handled := Some {| exc_value := chained;
                        format_exception := deep_stack |};
     task_names := true |}.

(** [raise RuntimeError("outer") from Empty("inner")], where the class
    [Empty] defines [__len__] and its instance is false. *)
Definition falsy_cause : exn :=
  RaisedFrom "RuntimeError" "outer" (Falsy "Empty" "inner").

Definition handling_falsy_cause : ambient :=
  {| now := "2026-01-01T00:00:00+00:00";
     handled := Some {| exc_value := falsy_cause;
                        format_exception := twelve_entries |};
     task_names := true |}.

Definition bare_world : world := {| environ := ∅; inherited_level := 30 |}.

End Fixtures.

(** ** Sequences of operations on one logger *)

Module Usage.
Import PyStr Classifier Json Logging Logger TraceUtils Spec.

(** What a user of the logger can do with it: one of the six logging
    methods, [set_trace_id], [clear_trace_id], or [setup_trace_id]. *)
Inductive operation :=
| Log (m : method) (amb : ambient) (message : string)
      (trace_id : option string) (kwargs : gmap string pyval)
| SetTraceId (trace_id : string)
| ClearTraceId
| SetupTraceId (p : process).

Definition run (op : operation) : M unit :=
  match op with
  | Log m amb message trace_id kwargs => call m amb message trace_id kwargs
  | SetTraceId trace_id => set_trace_id trace_id
  | ClearTraceId => clear_trace_id
  | SetupTraceId p => bind (setup_trace_id p) (fun _ => ret tt)
  end.

(** The state after a sequence of operations, the caller going on after
    an operation that raised. *)
Fixpoint run_all (ops : list operation) (st : state) : state :=
  match ops with
  | [] => st
  | op :: rest => run_all rest (run op st).2
  end.

(** A logger just built, with nothing written yet. *)
Definition fresh (lg : EnvironmentLogger) : state :=
  {| this := lg; stream := []; reported := [] |}.

(** [inner] wrapped in successive [raise ... from ...], the first layer
    outermost. *)
Fixpoint wrap (layers : list (string * string)) (inner : exn) : exn :=
  match layers with
  | [] => inner
  | (cls, msg) :: rest => RaisedFrom cls msg (wrap rest inner)
  end.

End Usage.

(** ** Several loggers of one name *)

Module Registry.
Import PyStr Classifier Json Logging Logger TraceUtils Spec Usage.

(** The [logging.Logger] object that [logging.getLogger] keeps for one
    name: its name, the level [setLevel] gave it last, and the effective
    level it inherits while that level is NOTSET. *)
Record pylogger := {
  its_name : string;
  its_level : Z;
  its_inherited : Z
}.

(** What the loggers built for that name have in common: the
    [logging.Logger] they all refer to, the console its handler writes
    to, and the errors the handler reported.  Loggers of other names,
    which could change what this one inherits, are not part of it. *)
Record process_state := {
  shared : pylogger;
  console : list string;
  errors : list pyerr
}.

(** An [EnvironmentLogger] object built for the name: beside
    [self.logger], which is the shared object, the two attributes of its
    own. *)
Record wrapper := {
  own_environment : string;
  own_trace_id : option string
}.

(** The logger as the user of one wrapper sees it. *)
Definition view (h : wrapper) (p : process_state) : state :=
  {| this := {| logger_name := its_name (shared p);
                logger_level := its_level (shared p);
                parent_level := its_inherited (shared p);
                environment := own_environment h;
                current_trace_id := own_trace_id h |};
     stream := console p;
     reported := errors p |}.

(** A method called on a wrapper: what it does to the slot goes to the
    wrapper, what it writes and reports goes to the process.  The methods
    assign to nothing else. *)
Definition through {A} (h : wrapper) (m : M A) (p : process_state)
  : result A * wrapper * process_state :=
  match m (view h p) with
  | (r, st') =>
      (r,
       {| own_environment := own_environment h;
          own_trace_id := current_trace_id (this st') |},
       {| shared := shared p;
          console := stream st';
          errors := reported st' |})
  end.

Fixpoint through_all (h : wrapper) (ops : list operation) (p : process_state)
  : wrapper * process_state :=
  match ops with
  | [] => (h, p)
  | op :: rest =>
      match through h (run op) p with
      | (_, h', p') => through_all h' rest p'
      end
  end.

(** [EnvironmentLogger(name, level)], which [get_logger(name, level)]
    returns, for the name of the shared object: [logging.getLogger(name)]
    is that object, whichever loggers refer to it already, so the level is
    set on it again; its handlers are replaced by one console handler
    with the same formatter.  When [getattr] or [setLevel] raises, no
    level has been set. *)
Definition construct (w : world) (level : string) (p : process_state)
  : (pyerr + wrapper) * process_state :=
  match __init__ w (its_name (shared p)) level with
  | inl e => (inl e, p)
  | inr lg =>
      (inr {| own_environment := environment lg; own_trace_id := None |},
       {| shared := {| its_name := its_name (shared p);
                       its_level := logger_level lg;
                       its_inherited := parent_level lg |};
          console := console p;
          errors := errors p |})
  end.

End Registry.

(** ** The invocation driver, [out_of_sync_report.py] *)

Module Driver.
Import PyStr Classifier Json Logging Logger TraceUtils.

Definition USER_AGENT : string :=
  "Mozilla/5.0 (Macintosh; Intel Mac OS X 10_15_7) AppleWebKit/537.36 (KHTML, like Gecko) Chrome/125.0.0.0 Safari/537.36".

(** A call of [requests.post] as the two call sites write it: the URL, the
    [json=] payload if any, the headers, the timeout. *)
Record post := {
  url : string;
  payload : option (list (string * string));
  headers : list (string * string);
  timeout : Z
}.

(** What the authentication exchange comes to, up to and including
    [response.json().get("token")]: one of [requests.post],
    [raise_for_status], [json] or [get] raises, or the value found under
    [token] ([None], here [JNull], when there is none). *)
Inductive auth_reply :=
| AuthRaises (e : exn)
| AuthToken (token : value).

(** [response.json()]: it raises, or returns a value, kept as the text
    [json.dumps] makes of it. *)
Inductive json_result :=
| JsonRaises (e : exn)
| JsonValue (dumped : string).

(** One attempt at the protected API: [requests.post] or
    [raise_for_status] raises, or a response is at hand, with
    [headers.get("Content-Type", "")], [text] and what [json()] would
    do. *)
Inductive base_reply :=
| BaseRaises (e : exn)
| BaseResponse (content_type : string) (text : string) (js : json_result).

(** Everything the driver reads from outside: the module constant
    [SECRET_NAME], the process, the clock (read when the n-th line is
    formatted), the formatted stack trace of an exception, the secret
    store ([get_secrets]: the client call and [json.loads]; the secret is
    an object of strings), the two HTTP services (their answer may depend
    on how many requests were sent before), and the test
    [isinstance(e, RequestException)] of the retry policy. *)
Record collaborators := {
  SECRET_NAME : option string;
  proc : process;
  tick : nat -> string;
  format_exception_of : exn -> list string;
  secret_value : string -> exn + gmap string string;
  auth_post : nat -> post -> auth_reply;
  base_post : nat -> post -> base_reply;
  is_RequestException : exn -> bool;
  py_task_names : bool
}.

(** The module's logger, and the requests sent so far. *)
Record dstate := {
  log : state;
  sent : list post
}.

(** The returned envelope. *)
Record response := {
  statusCode : Z;
  body : string
}.

(** Exceptions of the driver are objects; every one of the model is an
    instance of [Exception]. *)
Definition D (A : Type) : Type := dstate -> (exn + A) * dstate.

Definition dret {A} (a : A) : D A := fun st => (inr a, st).

Definition draise {A} (e : exn) : D A := fun st => (inl e, st).

Definition dbind {A B} (m : D A) (k : A -> D B) : D B :=
  fun st =>
    match m st with
    | (inr a, st') => k a st'
    | (inl e, st') => (inl e, st')
    end.

(** [try: body  except Exception as e: handler] *)
Definition try_except {A} (body : D A) (handler : exn -> D A) : D A :=
  fun st =>
    match body st with
    | (inr a, st') => (inr a, st')
    | (inl e, st') => handler e st'
    end.

(** [try: body  finally: cleanup]: the cleanup runs on both exits; what it
    raises replaces the outcome of the body. *)
Definition finally {A} (body : D A) (cleanup : D unit) : D A :=
  fun st =>
    match body st with
    | (outcome, st') =>
        match cleanup st' with
        | (inr _, st'') => (outcome, st'')
        | (inl e, st'') => (inl e, st'')
        end
    end.

Declare Scope drv_scope.
Delimit Scope drv_scope with drv.
Notation "x <~ m ;; k" := (dbind m (fun x => k))
  (at level 100, m at next level, k at level 200, right associativity) : drv_scope.
Notation "m ;; k" := (dbind m (fun _ => k))
  (at level 100, k at level 200, right associativity) : drv_scope.
Local Open Scope drv_scope.

Definition pyerr_name (e : pyerr) : string :=
  match e with
  | AttributeError => "AttributeError"
  | ValueError => "ValueError"
  | TypeError => "TypeError"
  | KeyError => "KeyError"
  end.

(** A method of the logger called from the driver.  The text of an
    exception raised by [logging] is not kept by the model of the logger;
    the driver passes no keyword fields and meets none. *)
Definition lift {A} (m : M A) : D A :=
  fun st =>
    match m (log st) with
    | (Ok a, l) => (inr a, {| log := l; sent := sent st |})
    | (Raise e, l) =>
        (inl (Raised (pyerr_name e) EmptyString), {| log := l; sent := sent st |})
    end.

(** The clock reading of the next line. *)
Definition clock (w : collaborators) (st : dstate) : string :=
  tick w (length (stream (log st))).

Definition logger_info (w : collaborators) (message : string) : D unit :=
  fun st =>
    lift (info {| now := clock w st; handled := None;
                   task_names := py_task_names w |} message None ∅) st.

Definition logger_warning (w : collaborators) (message : string) : D unit :=
  fun st =>
    lift (warning {| now := clock w st; handled := None;
                   task_names := py_task_names w |} message None ∅) st.

(** [logger.exception(message)] inside [except Exception as e]. *)
Definition logger_exception (w : collaborators) (e : exn) (message : string)
  : D unit :=
  fun st =>
    lift (exception
            {| now := clock w st;
               handled := Some {| exc_value := e;
                                  format_exception := format_exception_of w e |};
                   task_names := py_task_names w |}
            message None ∅) st.

(** *** [json.dumps] with its default [ensure_ascii=True] *)

(** [ESCAPE_ASCII]: the two-character escapes, and [\u00xx] for every
    other code point outside [' '..'~']. *)
Definition escape_char_ascii (c : ascii) : string :=
  let n := code c in
  if ((32 <=? n) && (n <=? 126) && negb (n =? 34) && negb (n =? 92))%N
  then String c EmptyString
  else if (n <? 32)%N || (n =? 34)%N || (n =? 92)%N then escape_char c
  else
    String backslash
      (String "u" (String "0" (String "0"
         (String (hex_digit (n / 16)) (String (hex_digit (n mod 16)) EmptyString))))).

Fixpoint escape_ascii (s : string) : string :=
  match s with
  | EmptyString => EmptyString
  | String c r => escape_char_ascii c +:+ escape_ascii r
  end.

Definition dumps_string_ascii (s : string) : string :=
  String dquote (escape_ascii s +:+ String dquote EmptyString).

(** A member of the envelope: a string, or a value already serialised. *)
Inductive member :=
| Text (s : string)
| Dumped (text : string).

Definition dumps_member (kv : string * member) : string :=
  dumps_string_ascii kv.1 +:+ ": "
  +:+ match kv.2 with
      | Text s => dumps_string_ascii s
      | Dumped text => text
      end.

Fixpoint dumps_members (d : list (string * member)) : string :=
  match d with
  | [] => EmptyString
  | [kv] => dumps_member kv
  | kv :: rest => dumps_member kv +:+ ", " +:+ dumps_members rest
  end.

Definition dumps_envelope (d : list (string * member)) : string :=
  "{" +:+ dumps_members d +:+ "}".

(** *** The functions of the driver *)

Definition get_secrets (w : collaborators) (secret_name : string)
  : D (gmap string string) :=
  match secret_value w secret_name with
  | inl e => draise e
  | inr secret => dret secret
  end.

(** [secret[key]]; the keys asked for are plain identifiers, whose [repr]
    is the key between single quotes. *)
Definition getitem (secret : gmap string string) (key : string) : D string :=
  match secret !! key with
  | Some v => dret v
  | None => draise (Raised "KeyError" ("'" +:+ key +:+ "'"))
  end.

Definition send_auth (w : collaborators) (request : post) : D auth_reply :=
  fun st =>
    (inr (auth_post w (length (sent st)) request),
     {| log := log st; sent := sent st ++ [request] |}).

Definition send_base (w : collaborators) (request : post) : D base_reply :=
  fun st =>
    (inr (base_post w (length (sent st)) request),
     {| log := log st; sent := sent st ++ [request] |}).

(** Truthiness of a JSON scalar. *)
Definition value_truthy (v : value) : bool :=
  match v with
  | JNull => false
  | JInt n => negb (n =? 0)
  | JStr s => nonempty s
  end.

(** [str(v)], as an f-string formats it. *)
Definition py_str (v : value) : string :=
  match v with
  | JNull => "None"
  | JInt n => str_of_int n
  | JStr s => s
  end.

Definition get_token (w : collaborators)
    (username password domain auth_api_url trace_id : string) : D value :=
  let payload :=
    [ ("username", username); ("password", password); ("domain", domain) ] in
  let headers := [ ("X-Request-ID", trace_id); ("User-Agent", USER_AGENT) ] in
  reply <~ send_auth w
             {| url := auth_api_url; payload := Some payload;
                headers := headers; timeout := 10 |} ;;
  match reply with
  | AuthRaises e => draise e
  | AuthToken token =>
      if value_truthy token then dret token
      else draise (Raised "ValueError" "No token found in auth response.")
  end.

(** What [call_base_api] returns: [response.json()] or [response.text]. *)
Inductive protected_data :=
| FromJson (dumped : string)
| FromText (text : string).

(** The body of [call_base_api], one attempt. *)
Definition call_base_api_once (w : collaborators) (token : value)
    (trace_id base_api_url : string) : D protected_data :=
  let headers :=
    [ ("Authorization", "Bearer " +:+ py_str token);
      ("X-Request-ID", trace_id);
      ("User-Agent", USER_AGENT) ] in
  reply <~ send_base w
             {| url := base_api_url; payload := None;
                headers := headers; timeout := 60 |} ;;
  match reply with
  | BaseRaises e => draise e
  | BaseResponse content_type text js =>
      if String.prefix "application/json" content_type && nonempty (strip text)
      then match js with
           | JsonRaises e => draise e
           | JsonValue dumped => dret (FromJson dumped)
           end
      else
        logger_warning w ("Non-JSON or empty response from base API: " +:+ text) ;;
        dret (FromText text)
  end.

(** The decorator [retry(stop=stop_after_attempt(3),
    retry=retry_if_exception_type(RequestException), reraise=True)]: an
    attempt that raises a [RequestException] is made again while attempts
    are left; any other exception, and the one of the last attempt, is
    raised as it is.  The waits between attempts are not modelled. *)
Fixpoint retry {A} (w : collaborators) (retries : nat) (attempt : D A) : D A :=
  fun st =>
    match attempt st with
    | (inr a, st') => (inr a, st')
    | (inl e, st') =>
        match retries with
        | S left_ => if is_RequestException w e
                     then retry w left_ attempt st'
                     else (inl e, st')
        | O => (inl e, st')
        end
    end.

Definition call_base_api (w : collaborators) (token : value)
    (trace_id base_api_url : string) : D protected_data :=
  retry w 2 (call_base_api_once w token trace_id base_api_url).

Definition success_body (data : protected_data) (trace_id : string) : string :=
  dumps_envelope
    [ ("message", Text "Success");
      ("data", match data with
               | FromJson dumped => Dumped dumped
               | FromText text => Text text
               end);
      ("traceId", Text trace_id) ].

Definition error_body (e : exn) (trace_id : string) : string :=
  dumps_envelope
    [ ("message", Text "Error");
      ("error", Text (str_exn e));
      ("traceId", Text trace_id) ].

(** The [try] block of [lambda_handler]; [EnvironmentError] is the class
    [OSError]. *)
Definition try_block (w : collaborators) (trace_id : string) : D response :=
  logger_info w "Lambda execution started" ;;
  secret_name <~
    match SECRET_NAME w with
    | Some name =>
        if nonempty name then dret name
        else draise (Raised "OSError"
                       "Missing required environment variable: SECRET_NAME")
    | None =>
        draise (Raised "OSError"
                  "Missing required environment variable: SECRET_NAME")
    end ;;
  secret <~ get_secrets w secret_name ;;
  username <~ getitem secret "username" ;;
  password <~ getitem secret "password" ;;
  auth_api_url <~ getitem secret "AUTH_API_URL" ;;
  base_api_url <~ getitem secret "PROTECTED_API_URL" ;;
  domain <~ getitem secret "DOMAIN" ;;
  logger_info w ("Retrieved credentials for user: " +:+ username) ;;
  token <~ get_token w username password domain auth_api_url trace_id ;;
  logger_info w "Token retrieved successfully" ;;
  protected <~ call_base_api w token trace_id base_api_url ;;
  logger_info w "Base Api call succeeded" ;;
  dret {| statusCode := 200; body := success_body protected trace_id |}.

(** The [except Exception as e] block. *)
Definition except_block (w : collaborators) (trace_id : string) (e : exn)
  : D response :=
  logger_exception w e "Lambda execution failed" ;;
  dret {| statusCode := 500; body := error_body e trace_id |}.

(** [lambda_handler(event, context)]; [setup_trace_id] is the function of
    [trace_utils.py]. *)
Definition lambda_handler (w : collaborators) : D response :=
  trace_id <~ lift (setup_trace_id (proc w)) ;;
  finally
    (try_except (try_block w trace_id) (except_block w trace_id))
    (lift clear_trace_id).

End Driver.

(** ** Vocabulary of the statements about the driver *)

Module DriverSpec.
Import PyStr Classifier Json Logging Logger TraceUtils Spec Usage Driver.

(** [headers.get(k)] on the headers of a request. *)
Fixpoint header (k : string) (h : list (string * string)) : option string :=
  match h with
  | [] => None
  | (k', v) :: rest => if String.eqb k k' then Some v else header k rest
  end.

(** The two call sites: the authentication request has a payload, the
    request to the protected API has none. *)
Definition is_auth (r : post) : bool :=
  match payload r with Some _ => true | None => false end.

Definition is_base (r : post) : bool := negb (is_auth r).

Definition count (f : post -> bool) (l : list post) : nat :=
  length (filter (fun r => f r = true) l).

(** The trace id [setup_trace_id] makes for this invocation. *)
Definition invocation_id (w : collaborators) : string :=
  str_of_int (getpid (proc w)) +:+ "@" +:+ gethostname (proc w) +:+ "/"
  +:+ uuid4 (proc w) +:+ "-" +:+ "0000000000000000".

(** The requests sent between two states. *)
Definition requested (st st' : dstate) : list post :=
  skipn (length (sent st)) (sent st').

(** What a step of the driver keeps while the slot holds [t]: the
    configuration of the logger and the slot; the lines and requests
    already there; [t] as trace id of every line it writes and as request
    id of every request it sends. *)
Definition steps (t : string) (st st' : dstate) : Prop :=
  logger_name (this (log st')) = logger_name (this (log st))
  /\ logger_level (this (log st')) = logger_level (this (log st))
  /\ parent_level (this (log st')) = parent_level (this (log st))
  /\ environment (this (log st')) = environment (this (log st))
  /\ current_trace_id (this (log st')) = current_trace_id (this (log st))
  /\ exists lines requests,
       stream (log st') = stream (log st) ++ lines
       /\ sent st' = sent st ++ requests
       /\ (current_trace_id (this (log st)) = Some t ->
           Forall (fun line => field "trace_id" line = Some (JStr t)) lines)
       /\ Forall (fun r => header "X-Request-ID" (headers r) = Some t) requests.

(** At most [a] authentication requests and [b] requests to the protected
    API are added. *)
Definition grows (a b : nat) (st st' : dstate) : Prop :=
  exists requests,
    sent st' = sent st ++ requests
    /\ (count is_auth requests <= a)%nat
    /\ (count is_base requests <= b)%nat.

(** A computation of the driver that stays within a relation between the
    state before and the state after. *)
Definition within {A} (R : dstate -> dstate -> Prop) (m : D A) : Prop :=
  forall st, R st (m st).2.

(** A computation whose returned values all have a property. *)
Definition returns {A} (P : A -> Prop) (m : D A) : Prop :=
  forall st a st', m st = (inr a, st') -> P a.










(** A driver state whose logger is the one of the module,
    [get_logger('RMRForecast', 'INFO')], in any process environment and
    with any trace id left in its slot. *)
Definition module_logger (st : dstate) : Prop :=
  exists w lg,
    get_logger w "RMRForecast" "INFO" = inr lg
    /\ logger_name (this (log st)) = logger_name lg
    /\ logger_level (this (log st)) = logger_level lg.

End DriverSpec.

(** ** Collaborators used in the examples *)

Module DriverFixtures.
Import PyStr Classifier Json Logging Logger TraceUtils Spec Fixtures Usage Driver.











End DriverFixtures.

Import PyStr Classifier Json Logging Logger TraceUtils Spec Fixtures Usage.
Import Registry.
Import Driver DriverSpec DriverFixtures.
Local Open Scope py_scope.

(** * Facts *)

(** ** Strings *)

Section StringFacts.

Lemma append_cons (x : ascii) (a b : string) :
  String x a +:+ b = String x (a +:+ b).
Proof. reflexivity. Qed.

Lemma append_nil_l (b : string) : "" +:+ b = b.
Proof. reflexivity. Qed.

Lemma append_assoc (a b c : string) : (a +:+ b) +:+ c = a +:+ b +:+ c.
Proof.
  induction a as [|x a IH]; [reflexivity|].
  rewrite !append_cons. now f_equal.
Qed.

Lemma append_nil_r (a : string) : a +:+ "" = a.
Proof.
  induction a as [|x a IH]; [reflexivity|].
  rewrite append_cons. now f_equal.
Qed.

Lemma length_append (a b : string) :
  String.length (a +:+ b) = (String.length a + String.length b)%nat.
Proof.
  induction a as [|x a IH]; [reflexivity|].
  rewrite append_cons. simpl. now f_equal.
Qed.

End StringFacts.

(** ** [loads] reads back what [dumps] writes *)

Section JsonFacts.

Lemma parse_chars_escape_char (c : ascii) (rest : string) :
  parse_chars (escape_char c +:+ rest) = cons_char c (parse_chars rest).
Proof. destruct c as [[] [] [] [] [] [] [] []]; reflexivity. Qed.

Lemma parse_chars_escape (s rest : string) :
  parse_chars (escape s +:+ String dquote rest) = Some (s, rest).
Proof.
  induction s as [|c s IH]; cbn [escape].
  - reflexivity.
  - rewrite append_assoc, parse_chars_escape_char, IH. reflexivity.
Qed.

Lemma parse_digits_uint (u : Decimal.uint) (rest : string) :
  ends_number rest ->
  parse_digits (NilEmpty.string_of_uint u +:+ rest) = (u, rest).
Proof.
  intros Hrest.
  induction u; cbn [NilEmpty.string_of_uint]; rewrite ?append_cons, ?append_nil_l;
    try (cbn [parse_digits]; cbn; rewrite IHu; reflexivity).
  destruct rest as [|c r]; simpl in *; [reflexivity | now rewrite Hrest].
Qed.

Lemma parse_int_str_of_int (n : Z) (rest : string) :
  ends_number rest ->
  parse_int (str_of_int n +:+ rest) = Some (n, rest).
Proof.
  intros Hrest. unfold str_of_int.
  pose proof (DecimalZ.of_to n) as Hn.
  destruct n as [|p|p]; simpl in *.
  - destruct rest as [|c r]; simpl in *; [reflexivity | now rewrite Hrest].
  - pose proof (DecimalPos.Unsigned.to_uint_nonnil p) as Hnil.
    destruct (Pos.to_uint p) eqn:E; [congruence | ..];
      unfold parse_int; simpl;
      rewrite (parse_digits_uint _ _ Hrest); simpl in Hn; now rewrite Hn.
  - pose proof (DecimalPos.Unsigned.to_uint_nonnil p) as Hnil.
    destruct (Pos.to_uint p) eqn:E; [congruence | ..];
      unfold parse_int; simpl;
      rewrite (parse_digits_uint _ _ Hrest); simpl in Hn; now rewrite Hn.
Qed.

Lemma str_of_int_head (n : Z) :
  exists c r, str_of_int n = String c r
              /\ Ascii.eqb c dquote = false /\ Ascii.eqb c "n" = false.
Proof.
  unfold str_of_int.
  destruct n as [|p|p]; simpl.
  - eexists _, _; repeat split; reflexivity.
  - pose proof (DecimalPos.Unsigned.to_uint_nonnil p) as Hnil.
    destruct (Pos.to_uint p); [congruence | ..]; simpl;
      eexists _, _; repeat split; reflexivity.
  - eexists _, _; repeat split; reflexivity.
Qed.

Lemma expect_cons (a : ascii) (p s : string) :
  expect (String a p) (String a s) = expect p s.
Proof. cbn [expect]. now rewrite Ascii.eqb_refl. Qed.

Lemma dumps_string_append (k rest : string) :
  dumps_string k +:+ rest = String dquote (escape k +:+ String dquote rest).
Proof.
  unfold dumps_string.
  now rewrite append_cons, append_assoc, append_cons, append_nil_l.
Qed.

Lemma parse_value_dumps (v : value) (rest : string) :
  ends_number rest ->
  parse_value (dumps_value v +:+ rest) = Some (v, rest).
Proof.
  intros Hrest. destruct v as [|n|t]; cbn [dumps_value].
  - reflexivity.
  - destruct (str_of_int_head n) as (c & r & E & Hq & Hn).
    pose proof (parse_int_str_of_int n rest Hrest) as P.
    rewrite E in *. rewrite append_cons in *.
    unfold parse_value. now rewrite Hq, Hn, P.
  - rewrite dumps_string_append. unfold parse_value.
    change (Ascii.eqb dquote dquote) with true. cbv iota.
    now rewrite parse_chars_escape.
Qed.

Lemma parse_item_dumps (kv : string * value) (rest : string) :
  ends_number rest ->
  parse_item (dumps_item kv +:+ rest) = Some (kv, rest).
Proof.
  intros Hrest. destruct kv as [k v]. unfold dumps_item. cbn [fst snd].
  rewrite !append_assoc, dumps_string_append. unfold parse_item.
  change (Ascii.eqb dquote dquote) with true. cbv iota.
  rewrite parse_chars_escape. cbn [mbind option_bind].
  rewrite !append_cons, append_nil_l. cbn [expect].
  change (Ascii.eqb ":" ":") with true. change (Ascii.eqb " " " ") with true.
  cbv iota. cbn [mbind option_bind].
  now rewrite (parse_value_dumps v rest Hrest).
Qed.

Lemma parse_items_dumps (d : list (string * value)) (fuel : nat) (rest : string) :
  d <> [] -> (length d <= fuel)%nat ->
  parse_items fuel (dumps_items d +:+ String "}" rest) = Some (d, rest).
Proof.
  revert fuel.
  induction d as [|kv d IH]; intros fuel Hne Hfuel; [congruence|].
  destruct fuel as [|fuel]; [simpl in Hfuel; lia|].
  destruct d as [|kv' d].
  - cbn [dumps_items parse_items].
    rewrite parse_item_dumps by reflexivity.
    reflexivity.
  - change (dumps_items (kv :: kv' :: d))
      with (dumps_item kv +:+ ", " +:+ dumps_items (kv' :: d)).
    rewrite !append_assoc. cbn [parse_items].
    rewrite parse_item_dumps by reflexivity.
    cbn [mbind option_bind].
    rewrite !append_cons, append_nil_l. cbn [expect].
    change (Ascii.eqb "," ",") with true. change (Ascii.eqb " " " ") with true.
    cbv iota.
    rewrite IH; [reflexivity | congruence | simpl in *; lia].
Qed.

Lemma dumps_items_length (d : list (string * value)) :
  (length d <= String.length (dumps_items d))%nat.
Proof.
  assert (Hitem : forall kv, (1 <= String.length (dumps_item kv))%nat).
  { intros [k v]. unfold dumps_item. rewrite dumps_string_append. simpl. lia. }
  induction d as [|kv d IH]; [simpl; lia|].
  destruct d as [|kv' d].
  - simpl. apply Hitem.
  - change (dumps_items (kv :: kv' :: d))
      with (dumps_item kv +:+ ", " +:+ dumps_items (kv' :: d)).
    rewrite length_append. specialize (Hitem kv).
    rewrite length_append. simpl in *. lia.
Qed.

(** Every document written by [dumps] is read back by [loads] as the
    dict it was written from. *)
Lemma loads_dumps (d : list (string * value)) : loads (dumps d) = Some d.
Proof.
  unfold dumps, loads.
  rewrite append_cons, append_nil_l, expect_cons.
  change (expect "" ?x) with (Some x). cbn [mbind option_bind].
  destruct d as [|kv d]; [reflexivity|].
  assert (Hhead : exists r, dumps_items (kv :: d) +:+ "}" = String dquote r).
  { destruct kv as [k v]. destruct d as [|kv' d].
    - cbn [dumps_items]. unfold dumps_item. cbn [fst snd].
      rewrite !append_assoc, dumps_string_append. eauto.
    - change (dumps_items ((k, v) :: kv' :: d))
        with (dumps_item (k, v) +:+ ", " +:+ dumps_items (kv' :: d)).
      unfold dumps_item at 1. cbn [fst snd].
      rewrite !append_assoc, dumps_string_append. eauto. }
  destruct Hhead as [r Hr].
  assert (Hexp : expect "}" (dumps_items (kv :: d) +:+ "}") = None).
  { rewrite Hr. reflexivity. }
  rewrite Hexp.
  rewrite (parse_items_dumps (kv :: d) _ "" ltac:(congruence)); [reflexivity|].
  pose proof (dumps_items_length (kv :: d)) as Hlen.
  cbn [String.length]. rewrite length_append. lia.
Qed.

End JsonFacts.

(** ** The classifier *)

Section ClassifierFacts.

(** The loop settles on the first candidate that is neither absent nor
    empty. *)
Lemma detect_loop_selected (sources : list (option string)) (v : string) :
  selected sources v -> detect_loop sources = classify_signal v.
Proof.
  intros (before & after & -> & Hbefore & Hv).
  induction Hbefore as [|o before Ho _ IH]; cbn [app detect_loop].
  - now rewrite Hv.
  - destruct o as [s|]; [|exact IH].
    cbn [truthy] in Ho. now rewrite Ho.
Qed.

Lemma ENV_MAPPING_lookup (k : string) :
  ENV_MAPPING !! k = if decide (In k environments) then Some k else None.
Proof.
  unfold ENV_MAPPING. rewrite !lookup_insert, lookup_empty.
  repeat case_decide; subst; try reflexivity;
    cbv [environments In] in *; exfalso; intuition congruence.
Qed.

Lemma classify_signal_range (v : string) : In (classify_signal v) environments.
Proof.
  unfold classify_signal.
  repeat match goal with
         | |- context [if ?b then _ else _] => destruct b
         end; cbv [environments In]; try tauto.
  cbv zeta. rewrite ENV_MAPPING_lookup.
  case_decide as H; cbn [default]; [exact H | cbv [environments In]; tauto].
Qed.

Lemma detect_loop_range (sources : list (option string)) :
  In (detect_loop sources) environments.
Proof.
  induction sources as [|[v|] rest IH]; cbn [detect_loop].
  - cbv [environments In]; tauto.
  - destruct (nonempty v); [apply classify_signal_range | exact IH].
  - exact IH.
Qed.

Lemma prefix_append (p q s : string) :
  String.prefix (p +:+ q) s = true -> String.prefix p s = true.
Proof.
  revert s. induction p as [|a p IH]; intros s H.
  - destruct s; reflexivity.
  - rewrite append_cons in H. destruct s as [|b s]; [discriminate H|].
    cbn [String.prefix] in *. destruct (ascii_dec a b); [now apply IH | discriminate H].
Qed.

Lemma contains_append (p q s : string) :
  contains (p +:+ q) s = true -> contains p s = true.
Proof.
  induction s as [|b s IH]; cbn [contains]; intros H;
    apply orb_true_iff in H as [H|H]; apply orb_true_iff.
  - left. now apply (prefix_append p q).
  - discriminate H.
  - left. now apply (prefix_append p q).
  - right. now apply IH.
Qed.

End ClassifierFacts.

(** ** [dumps] writes one line *)

Section OneLineFacts.

Lemma one_line_append (a b : string) :
  one_line (a +:+ b) = one_line a && one_line b.
Proof.
  induction a as [|x a IH]; [reflexivity|].
  rewrite append_cons. cbn [one_line]. rewrite IH. apply andb_assoc.
Qed.

Lemma one_line_escape_char (c : ascii) : one_line (escape_char c) = true.
Proof. destruct c as [[] [] [] [] [] [] [] []]; reflexivity. Qed.

Lemma one_line_escape (s : string) : one_line (escape s) = true.
Proof.
  induction s as [|c s IH]; [reflexivity|].
  cbn [escape]. now rewrite one_line_append, one_line_escape_char, IH.
Qed.

Lemma one_line_dumps_string (s : string) : one_line (dumps_string s) = true.
Proof.
  unfold dumps_string. cbn [one_line].
  now rewrite one_line_append, one_line_escape.
Qed.

Lemma one_line_uint (u : Decimal.uint) :
  one_line (NilEmpty.string_of_uint u) = true.
Proof. induction u; cbn [NilEmpty.string_of_uint one_line]; auto. Qed.

Lemma one_line_str_of_int (n : Z) : one_line (str_of_int n) = true.
Proof.
  unfold str_of_int, NilZero.string_of_int, NilZero.string_of_uint.
  destruct (Z.to_int n) as [u|u]; destruct u eqn:E;
    try reflexivity; rewrite <- E; cbn [one_line]; apply one_line_uint.
Qed.

Lemma one_line_dumps_item (kv : string * value) :
  one_line (dumps_item kv) = true.
Proof.
  destruct kv as [k v]. unfold dumps_item. cbn [fst snd].
  rewrite !one_line_append, one_line_dumps_string.
  destruct v; cbn [dumps_value];
    [reflexivity | now rewrite one_line_str_of_int
     | now rewrite one_line_dumps_string].
Qed.

Lemma one_line_dumps_items (d : list (string * value)) :
  one_line (dumps_items d) = true.
Proof.
  induction d as [|kv d IH]; [reflexivity|].
  destruct d as [|kv' d]; [apply one_line_dumps_item|].
  change (dumps_items (kv :: kv' :: d))
    with (dumps_item kv +:+ ", " +:+ dumps_items (kv' :: d)).
  now rewrite !one_line_append, one_line_dumps_item, IH.
Qed.

Lemma one_line_dumps (d : list (string * value)) : one_line (dumps d) = true.
Proof.
  unfold dumps. now rewrite !one_line_append, one_line_dumps_items.
Qed.

End OneLineFacts.

(** ** What a logging call does *)

Section CallFacts.

Lemma rebinds_false (l : list string) (kwargs : gmap string pyval) :
  rebinds l kwargs = false <-> Forall (fun k => kwargs !! k = None) l.
Proof.
  unfold rebinds. induction l as [|k l IH]; cbn [existsb].
  - split; [constructor | reflexivity].
  - rewrite orb_false_iff, IH, Forall_cons, bool_decide_eq_false.
    rewrite <- eq_None_not_Some. reflexivity.
Qed.

Lemma accepted_rebinds (m : method) (kwargs : gmap string pyval) :
  accepted m kwargs <-> rebinds (parameters m) kwargs = false.
Proof. symmetry. apply rebinds_false. Qed.

(** A call with a keyword naming one of its parameters raises [TypeError]
    before anything is touched.  Any other call either is filtered out by
    the level, or fails in [makeRecord] with the override still in place,
    or has its record formatted while the slot holds the effective trace
    id, and then restores the slot; the formatted record is written, a
    formatting error is reported. *)
Lemma call_spec (m : method) (amb : ambient) (message : string)
    (trace_id : option string) (kwargs : gmap string pyval) (st : state) :
  call m amb message trace_id kwargs st =
    let effective := py_or trace_id (current_trace_id (this st)) in
    let self := with_trace_id effective (this st) in
    if rebinds (parameters m) kwargs then (Raise TypeError, st)
    else if isEnabledFor (this st) (severity m) then
      if overwrites (task_names amb) (make_extra kwargs)
      then (Raise KeyError,
            {| this := self; stream := stream st; reported := reported st |})
      else
        match format self (now amb)
                (record_of m self amb message (make_extra kwargs)) with
        | inr line =>
            (Ok tt,
             {| this := this st;
                stream := stream st ++ [line];
                reported := reported st |})
        | inl e =>
            (Ok tt,
             {| this := this st;
                stream := stream st;
                reported := reported st ++ [e] |})
        end
    else (Ok tt, st).
Proof.
  destruct st as [[n l p e t] out errs].
  assert (Hlevel : rebinds [ "self"; "message"; "trace_id" ] kwargs = true ->
                   rebinds [ "self"; "level"; "message"; "trace_id" ] kwargs
                   = true).
  { unfold rebinds. cbn [existsb]. intros H.
    repeat (apply orb_prop in H as [H|H]; [rewrite H, ?orb_true_r; reflexivity|]).
    discriminate H. }
  destruct m as [[] |];
    cbv [call debug info warning error critical exception _log_with_context
         bind_arguments parameters
         Logger_leveled Logger_exception _log emit handleError bind ret raise
         get_attr set_current_trace_id write with_trace_id record_of severity
         isEnabledFor this stream reported logger_name logger_level
         parent_level environment current_trace_id id];
    revert Hlevel;
    (destruct (rebinds [ "self"; "message"; "trace_id" ] kwargs);
     intros Hlevel; [rewrite ?(Hlevel eq_refl); reflexivity|]);
    try (destruct (rebinds _ kwargs); [reflexivity|]);
    destruct (getEffectiveLevel l p <=? _); try reflexivity;
    destruct (overwrites _ _); try reflexivity;
    destruct (format _ _ _); reflexivity.
Qed.

Lemma written_same (st : state) : written st st = [].
Proof. unfold written. apply drop_all. Qed.

(** The lines of one call: at most one, the formatted record. *)
Lemma written_call (m : method) (amb : ambient) (message : string)
    (trace_id : option string) (kwargs : gmap string pyval) (st : state) :
  written st (call m amb message trace_id kwargs st).2 =
    let self := with_trace_id (py_or trace_id (current_trace_id (this st))) (this st) in
    if negb (rebinds (parameters m) kwargs)
       && isEnabledFor (this st) (severity m)
       && negb (overwrites (task_names amb) (make_extra kwargs))
    then match format self (now amb)
                 (record_of m self amb message (make_extra kwargs)) with
         | inr line => [line]
         | inl _ => []
         end
    else [].
Proof.
  rewrite call_spec. cbv zeta.
  destruct (rebinds _ _); cbn [andb negb]; [apply written_same|].
  destruct (isEnabledFor _ _); cbn [andb]; [|apply written_same].
  destruct (overwrites _ _); cbn [negb snd].
  - unfold written. cbn [stream]. apply drop_all.
  - destruct (format _ _ _); unfold written; cbn [snd stream].
    + apply drop_all.
    + apply drop_app_length.
Qed.

Lemma in_written_call (m : method) (amb : ambient) (message : string)
    (trace_id : option string) (kwargs : gmap string pyval) (st : state)
    (line : string) :
  In line (written st (call m amb message trace_id kwargs st).2) ->
  let self := with_trace_id (py_or trace_id (current_trace_id (this st))) (this st) in
  format self (now amb) (record_of m self amb message (make_extra kwargs))
  = inr line.
Proof.
  rewrite written_call. cbv zeta.
  destruct (_ && _ && _); [|intros []].
  destruct (format _ _ _); [intros [] | intros [<-|[]]; reflexivity].
Qed.

Lemma format_inv (self : EnvironmentLogger) (clock : string)
    (record : LogRecord) (line : string) :
  format self clock record = inr line ->
  exists d, log_data self clock record = inr d /\ line = dumps d.
Proof.
  unfold format. destruct (log_data _ _ _) as [e|d]; [discriminate|].
  intros [= <-]. eauto.
Qed.

Lemma make_extra_logger (kwargs : gmap string pyval) :
  keeps_logger kwargs -> make_extra kwargs !! "logger_instance" = Some VSelf.
Proof.
  intros H. unfold make_extra.
  rewrite lookup_union_r by exact H. apply lookup_singleton_eq.
Qed.

Lemma make_extra_other (kwargs : gmap string pyval) (k : string) :
  k <> "logger_instance" -> make_extra kwargs !! k = kwargs !! k.
Proof.
  intros Hk. unfold make_extra. rewrite lookup_union.
  rewrite lookup_singleton_ne by congruence.
  now destruct (kwargs !! k).
Qed.

Lemma assoc_dict_set_ne (k k' : string) (v : value) (d : list (string * value)) :
  k <> k' -> assoc k (dict_set k' v d) = assoc k d.
Proof.
  intros Hne. induction d as [|[k0 v0] d IH]; cbn [dict_set assoc].
  - destruct (String.eqb_spec k k'); [contradiction | reflexivity].
  - destruct (String.eqb_spec k' k0) as [->|Hne0]; cbn [assoc].
    + destruct (String.eqb_spec k k0); [contradiction | reflexivity].
    + destruct (String.eqb_spec k k0); [reflexivity | exact IH].
Qed.

Lemma assoc_exception_fields (k : string) (ei : option exc_triple)
    (d : list (string * value)) :
  ~ In k exception_keys ->
  assoc k (exception_fields ei d) = assoc k d.
Proof.
  intros Hk. unfold exception_fields. cbv zeta.
  rewrite !assoc_dict_set_ne; [reflexivity | ..];
    intros ->; apply Hk; cbv [exception_keys In]; tauto.
Qed.

(** The trace id a record shows is the one in the slot of the logger the
    record refers to. *)
Lemma log_data_trace_id (self : EnvironmentLogger) (clock : string)
    (record : LogRecord) (d : list (string * value)) :
  log_data self clock record = inr d ->
  extra_dict record !! "logger_instance" = Some VSelf ->
  assoc "trace_id" d = Some (of_opt (current_trace_id self)).
Proof.
  unfold log_data. intros Hd Hself. rewrite Hself in Hd.
  cbn [default val_truthy] in Hd.
  destruct (getMessage record); [discriminate|].
  injection Hd as <-.
  destruct (exc_info record).
  - rewrite assoc_exception_fields; [reflexivity|].
    cbv [exception_keys In]. intros H.
    repeat (destruct H as [H|H]; [discriminate H|]). exact H.
  - reflexivity.
Qed.

Lemma log_data_keys (self : EnvironmentLogger) (clock : string)
    (record : LogRecord) (d : list (string * value)) :
  log_data self clock record = inr d ->
  keys d = match exc_info record with
           | Some _ => base_keys ++ exception_keys
           | None => base_keys
           end.
Proof.
  unfold log_data. destruct (getMessage record); [discriminate|].
  intros [= <-]. destruct (exc_info record); reflexivity.
Qed.

(** [format] reads two entries of [extra] only. *)
Lemma format_extra (m : method) (self : EnvironmentLogger) (amb : ambient)
    (message : string) (extra extra' : gmap string pyval) :
  extra !! "logger_instance" = extra' !! "logger_instance" ->
  extra !! "getMessage" = extra' !! "getMessage" ->
  format self (now amb) (record_of m self amb message extra)
  = format self (now amb) (record_of m self amb message extra').
Proof.
  intros Hl Hg. unfold format, log_data, getMessage.
  cbn [extra_dict record_of]. now rewrite Hl, Hg.
Qed.

Lemma format_shadowed (m : method) (self : EnvironmentLogger) (amb : ambient)
    (message : string) (extra : gmap string pyval) (v : pyval) :
  extra !! "getMessage" = Some v ->
  format self (now amb) (record_of m self amb message extra) = inl TypeError.
Proof.
  intros Hg. unfold format, log_data, getMessage.
  cbn [extra_dict record_of]. now rewrite Hg.
Qed.

(** The trace id of a record is the effective trace id of the call, as
    long as the keyword fields leave the logger reference alone. *)
Lemma trace_id_field (m : method) (amb : ambient) (message : string)
    (trace_id : option string) (kwargs : gmap string pyval) (st : state)
    (line : string) :
  keeps_logger kwargs ->
  In line (written st (call m amb message trace_id kwargs st).2) ->
  field "trace_id" line
  = Some (of_opt (py_or trace_id (current_trace_id (this st)))).
Proof.
  intros Hk Hin. apply in_written_call in Hin. cbv zeta in Hin.
  apply format_inv in Hin as (d & Hd & ->).
  unfold field. rewrite loads_dumps.
  apply (log_data_trace_id _ _ _ _ Hd).
  cbn [extra_dict record_of]. now apply make_extra_logger.
Qed.

Lemma reserved_keys_later (b : bool) (k : string) :
  In k (reserved_keys b) -> In k (reserved_keys true).
Proof.
  unfold reserved_keys. rewrite !in_app_iff. intros [H|H]; [now left|].
  destruct b; [now right | destruct H].
Qed.

Lemma reserved_not_logger_instance (b : bool) (k : string) :
  In k (reserved_keys b) -> k <> "logger_instance".
Proof.
  intros H%reserved_keys_later. revert H.
  cbv [reserved_keys In app]. intros H ->.
  repeat (destruct H as [H|H]; [discriminate H|]). exact H.
Qed.

Lemma plain_no_overwrite (b : bool) (kwargs : gmap string pyval) :
  plain kwargs -> overwrites b (make_extra kwargs) = false.
Proof.
  intros (_ & _ & _ & Hres). unfold overwrites.
  apply not_true_is_false. intros Hex.
  apply existsb_exists in Hex as (k & Hin & Hk).
  apply bool_decide_eq_true in Hk as [v Hv].
  rewrite Forall_forall in Hres.
  rewrite make_extra_other in Hv by now apply (reserved_not_logger_instance b).
  rewrite Hres in Hv
    by now apply list_elem_of_In, (reserved_keys_later b).
  discriminate.
Qed.

Lemma plain_accepted (m : method) (kwargs : gmap string pyval) :
  plain kwargs -> rebinds (parameters m) kwargs = false.
Proof.
  intros (_ & _ & Hpar & _). apply rebinds_false.
  destruct m; [exact Hpar|].
  cbn [parameters] in *. rewrite !Forall_cons in *. tauto.
Qed.

(** With plain keyword fields the record is formatted without error. *)
Lemma plain_format (m : method) (self : EnvironmentLogger) (amb : ambient)
    (message : string) (kwargs : gmap string pyval) :
  plain kwargs ->
  format self (now amb) (record_of m self amb message (make_extra kwargs))
  = format self (now amb) (record_of m self amb message (make_extra ∅))
  /\ exists line,
       format self (now amb) (record_of m self amb message (make_extra ∅))
       = inr line.
Proof.
  intros (Hk & Hg & _ & _). split.
  - apply format_extra.
    + rewrite !make_extra_logger; [reflexivity | reflexivity | exact Hk].
    + rewrite !make_extra_other by discriminate. now rewrite Hg.
  - unfold format, log_data, getMessage. cbn [extra_dict record_of].
    rewrite make_extra_other by discriminate.
    rewrite lookup_empty. eauto.
Qed.

Lemma plain_empty : plain (∅ : gmap string pyval).
Proof.
  repeat split; vm_compute; repeat constructor.
Qed.

(** A call with plain keyword fields returns, keeps the logger and the
    reported errors, and writes one line if it passes the level filter. *)
Lemma call_plain_returns (m : method) (amb : ambient) (message : string)
    (trace_id : option string) (kwargs : gmap string pyval) (st : state) :
  plain kwargs ->
  exists lines,
    call m amb message trace_id kwargs st
    = (Ok tt, {| this := this st; stream := stream st ++ lines;
                 reported := reported st |})
    /\ lines = written st (call m amb message trace_id kwargs st).2
    /\ (isEnabledFor (this st) (severity m) = true -> exists line, lines = [line])
    /\ (isEnabledFor (this st) (severity m) = false -> lines = []).
Proof.
  intros Hp. rewrite written_call, call_spec. cbv zeta.
  rewrite (plain_no_overwrite _ _ Hp), (plain_accepted _ _ Hp).
  cbn [andb negb].
  destruct (plain_format m
              (with_trace_id (py_or trace_id (current_trace_id (this st))) (this st))
              amb message kwargs Hp) as (-> & line & ->).
  destruct (isEnabledFor _ _).
  - exists [line]. split; [reflexivity|]. split; [reflexivity|].
    split; [eauto | discriminate].
  - exists []. rewrite app_nil_r. destruct st.
    split; [reflexivity|]. split; [reflexivity|].
    split; [discriminate | reflexivity].
Qed.

Lemma tb_str_last_n (tb_lines : list string) :
  tb_str tb_lines = strip (join (last_n 10 tb_lines)).
Proof. destruct tb_lines; reflexivity. Qed.

Lemma last_n_suffix {A} (n : nat) (l : list A) :
  l = firstn (length l - n) l ++ last_n n l
  /\ length (last_n n l) = Nat.min n (length l).
Proof.
  unfold last_n. split.
  - symmetry. apply take_drop.
  - rewrite length_drop. lia.
Qed.

Lemma root_exc_cause (e : exn) :
  root_exc e = match __cause__ e with
               | Some c => if exn_truthy c then root_exc c else e
               | None => e
               end.
Proof. destruct e; reflexivity. Qed.

Lemma root_exc_root_cause (e : exn) : root_cause e (root_exc e).
Proof.
  induction e as [c m | c m e' IH | c m | c m e' IH]; cbn [root_exc].
  - apply root_here. discriminate.
  - destruct (exn_truthy e') eqn:Ht.
    + now apply (root_next _ e').
    + apply root_here. intros c0 [= <-]. exact Ht.
  - apply root_here. discriminate.
  - destruct (exn_truthy e') eqn:Ht.
    + now apply (root_next _ e').
    + apply root_here. intros c0 [= <-]. exact Ht.
Qed.

Lemma root_cause_unique (e r : exn) : root_cause e r -> r = root_exc e.
Proof.
  induction 1 as [e Hstop | e c r Hc Ht _ IH]; rewrite root_exc_cause.
  - destruct (__cause__ e) as [c|]; [|reflexivity].
    now rewrite (Hstop c eq_refl).
  - now rewrite Hc, Ht.
Qed.

Lemma join_concat (l : list string) : join l = String.concat "" l.
Proof.
  induction l as [|a [|b l] IH]; [reflexivity | apply append_nil_r |].
  change (join (a :: b :: l)) with (a +:+ join (b :: l)).
  now rewrite IH.
Qed.

Lemma module_attrs_other (u : string) :
  ~ In u level_names -> u <> "BASIC_FORMAT" -> u <> "_STYLES" ->
  module_attrs !! u = None.
Proof.
  intros Hu Hb Hs. unfold module_attrs. cbn [list_to_map foldr fst snd].
  rewrite !lookup_insert_ne, lookup_empty; [reflexivity | ..];
    try congruence;
    intros <-; apply Hu; cbv [level_names In]; tauto.
Qed.

End CallFacts.

(** * The claims *)

Section TraceIdClaims.

(** C1, as stated, fails: with the current trace id ["X"],
    [info("m", trace_id="")] supplies an explicit trace id, the empty
    string, and the record carries ["X"]. *)
Lemma C1_explicit_empty_counterexample :
  written state_X (info quiet "m" (Some "") ∅ state_X).2
  = [line_of (info quiet "m" (Some "") ∅ state_X)]
  /\ field "trace_id" (line_of (info quiet "m" (Some "") ∅ state_X))
     = Some (JStr "X")
  /\ field "trace_id" (line_of (info quiet "m" (Some "") ∅ state_X))
     <> Some (JStr "").
Proof. vm_compute. repeat split. discriminate. Qed.

(** C1, amended: for each of the six logging methods, when the keyword
    fields do not use the key [logger_instance], the [trace_id] field of
    an emitted record is the explicit [trace_id] argument if a non-empty
    one was given, otherwise the logger's current trace id, otherwise
    null; and a call that passes the level filter with keyword fields
    that name neither a parameter of the call, nor an attribute or the
    method [getMessage] of the record, emits exactly one record. *)
Theorem C1_record_trace_id (m : method) (amb : ambient) (message : string)
    (trace_id : option string) (kwargs : gmap string pyval) (st : state) :
  (forall line,
      keeps_logger kwargs ->
      In line (written st (call m amb message trace_id kwargs st).2) ->
      field "trace_id" line
      = Some match trace_id with
             | Some (String c t) => JStr (String c t)
             | _ => match current_trace_id (this st) with
                    | Some current => JStr current
                    | None => JNull
                    end
             end)
  /\ (isEnabledFor (this st) (severity m) = true ->
      plain kwargs ->
      exists line,
        written st (call m amb message trace_id kwargs st).2 = [line]).
Proof.
  split.
  - intros line Hk Hin.
    rewrite (trace_id_field _ _ _ _ _ _ _ Hk Hin).
    destruct trace_id as [[|c t]|]; reflexivity.
  - intros Hen Hp. rewrite written_call. cbv zeta.
    rewrite Hen, (plain_no_overwrite _ _ Hp), (plain_accepted _ _ Hp).
    cbn [andb negb].
    destruct (plain_format m
                (with_trace_id (py_or trace_id (current_trace_id (this st))) (this st))
                amb message kwargs Hp) as (-> & line & ->).
    eauto.
Qed.

Lemma C1_record_trace_id_witness :
  field "trace_id" (line_of (info quiet "m2" (Some "Y") ∅ state_X))
  = Some (JStr "Y").
Proof.
  apply (proj1 (C1_record_trace_id (Leveled INFO) quiet "m2" (Some "Y") ∅ state_X)).
  - reflexivity.
  - vm_compute. left. reflexivity.
Defined.

(** C2: when a logging method called with an explicit trace id returns,
    the logger is as it was before the call, its current trace id
    included; a following call without an explicit trace id (and without
    a [logger_instance] keyword field) emits the trace id that was
    current before. *)
Theorem C2_override_is_temporary (m : method) (amb : ambient) (message : string)
    (t : string) (kwargs : gmap string pyval) (st st' : state) :
  call m amb message (Some t) kwargs st = (Ok tt, st') ->
  this st' = this st
  /\ current_trace_id (this st') = current_trace_id (this st)
  /\ forall m2 amb2 message2 kwargs2 line,
       keeps_logger kwargs2 ->
       In line (written st' (call m2 amb2 message2 None kwargs2 st').2) ->
       field "trace_id" line = Some (of_opt (current_trace_id (this st))).
Proof.
  intros Hcall.
  assert (Hthis : this st' = this st).
  { rewrite call_spec in Hcall. cbv zeta in Hcall.
    destruct (rebinds _ _); [discriminate Hcall|].
    destruct (isEnabledFor _ _);
      [destruct (overwrites _ _); [|destruct (format _ _ _)]|];
      inversion Hcall; reflexivity. }
  split; [exact Hthis|]. split; [now rewrite Hthis|].
  intros m2 amb2 message2 kwargs2 line Hk Hin.
  rewrite (trace_id_field _ _ _ _ _ _ _ Hk Hin), Hthis. reflexivity.
Qed.

Lemma C2_override_is_temporary_witness :
  current_trace_id (this (info quiet "m2" (Some "Y") ∅ state_X).2) = Some "X".
Proof.
  assert (Hcall : call (Leveled INFO) quiet "m2" (Some "Y") ∅ state_X
                  = (Ok tt, (info quiet "m2" (Some "Y") ∅ state_X).2)).
  { vm_compute. reflexivity. }
  pose proof (C2_override_is_temporary (Leveled INFO) quiet "m2" "Y" ∅
                state_X _ Hcall) as (_ & H & _).
  exact H.
Defined.

(** C9: an empty string passed as explicit trace id does not override:
    the call behaves as the call without the argument, and a record it
    emits carries the logger's current trace id, or null when there is
    none. *)
Theorem C9_empty_trace_id_falls_back (m : method) (amb : ambient)
    (message : string) (kwargs : gmap string pyval) (st : state) :
  call m amb message (Some "") kwargs st = call m amb message None kwargs st
  /\ forall line,
       keeps_logger kwargs ->
       In line (written st (call m amb message (Some "") kwargs st).2) ->
       field "trace_id" line
       = Some match current_trace_id (this st) with
              | Some current => JStr current
              | None => JNull
              end.
Proof.
  split.
  - rewrite !call_spec. reflexivity.
  - intros line Hk Hin.
    rewrite (trace_id_field _ _ _ _ _ _ _ Hk Hin). reflexivity.
Qed.

Lemma C9_empty_trace_id_falls_back_witness :
  field "trace_id" (line_of (error quiet "m" (Some "") ∅ state_X))
  = Some (JStr "X").
Proof.
  apply (proj2 (C9_empty_trace_id_falls_back (Leveled ERROR) quiet "m" ∅ state_X)).
  - reflexivity.
  - vm_compute. left. reflexivity.
Defined.

End TraceIdClaims.

Section RecordClaims.

(** C3, as stated, fails: the record of [info("m")] has the nine base
    keys and no exception key; [exception_type] is absent, not null. *)
Lemma C3_leveled_record_counterexample :
  written state_X (info quiet "m" None ∅ state_X).2
  = [line_of (info quiet "m" None ∅ state_X)]
  /\ keys_of (line_of (info quiet "m" None ∅ state_X)) = Some base_keys
  /\ keys_of (line_of (info quiet "m" None ∅ state_X))
     <> Some (base_keys ++ exception_keys)
  /\ field "exception_type" (line_of (info quiet "m" None ∅ state_X)) = None
  /\ field "exception_type" (line_of (info quiet "m" None ∅ state_X))
     <> Some JNull.
Proof. vm_compute. repeat split; discriminate. Qed.

(** C3, amended: every emitted record is one line of JSON that reads back
    as an object; its keys are exactly the nine base keys for a leveled
    call, and the nine base keys followed by the five exception keys for
    [exception]; when [exception] is called while no exception is being
    handled, [exception_type], [exception_message], [root_cause_type] and
    [root_cause_message] are null and [traceback] is the empty string. *)
Theorem C3_record_shape (m : method) (amb : ambient) (message : string)
    (trace_id : option string) (kwargs : gmap string pyval) (st : state)
    (line : string) :
  In line (written st (call m amb message trace_id kwargs st).2) ->
  one_line line = true
  /\ exists d,
       loads line = Some d
       /\ keys d = match m with
                   | Leveled _ => base_keys
                   | Exception => base_keys ++ exception_keys
                   end
       /\ (m = Exception -> handled amb = None ->
           assoc "exception_type" d = Some JNull
           /\ assoc "exception_message" d = Some JNull
           /\ assoc "root_cause_type" d = Some JNull
           /\ assoc "root_cause_message" d = Some JNull
           /\ assoc "traceback" d = Some (JStr "")).
Proof.
  intros Hin. apply in_written_call in Hin. cbv zeta in Hin.
  apply format_inv in Hin as (d & Hd & ->).
  split; [apply one_line_dumps|].
  exists d. split; [apply loads_dumps|].
  split.
  - rewrite (log_data_keys _ _ _ _ Hd). destruct m; reflexivity.
  - intros -> Hnone. unfold log_data in Hd.
    destruct (getMessage _); [discriminate|]. injection Hd as <-.
    cbn [exc_info record_of]. rewrite Hnone. repeat split; reflexivity.
Qed.

Lemma C3_record_shape_witness :
  one_line (line_of (exception handling "failed" None ∅ state_X)) = true
  /\ exists d,
       loads (line_of (exception handling "failed" None ∅ state_X)) = Some d
       /\ keys d = base_keys ++ exception_keys.
Proof.
  assert (Hin : In (line_of (exception handling "failed" None ∅ state_X))
                   (written state_X
                      (call Exception handling "failed" None ∅ state_X).2)).
  { vm_compute. left. reflexivity. }
  destruct (C3_record_shape Exception handling "failed" None ∅ state_X _ Hin)
    as (Hone & d & Hd & Hkeys & _).
  split; [exact Hone|]. exists d. split; [exact Hd | exact Hkeys].
Defined.

(** C4: the [traceback] field is cut by entries of the list
    [traceback.format_exception] returns, not by text lines.  When
    [exception("failed")] is called while handling a [RuntimeError]
    raised twelve calls deep [from] a [ValueError], [exception_type] and
    [root_cause_type] are as the claim says, and the [traceback] field is
    the stripped text of the last ten entries, nine frames of two lines
    each and the line of the exception: nineteen text lines, where the
    claim and the comment in the code promise ten at most. *)
Theorem C4_traceback_cut_by_entries :
  let outcome := exception handling_deep "failed" None ∅ state_X in
  written state_X outcome.2 = [line_of outcome]
  /\ field "exception_type" (line_of outcome) = Some (JStr "RuntimeError")
  /\ field "root_cause_type" (line_of outcome) = Some (JStr "ValueError")
  /\ length deep_stack = 18%nat
  /\ exists tb,
       field "traceback" (line_of outcome) = Some (JStr tb)
       /\ tb = strip (String.concat "" (skipn 8 deep_stack))
       /\ length (text_lines tb) = 19%nat
       /\ ~ (length (text_lines tb) <= 10)%nat.
Proof.
  cbv zeta. split; [vm_compute; reflexivity|].
  split; [vm_compute; reflexivity|].
  split; [vm_compute; reflexivity|].
  split; [reflexivity|].
  eexists. split; [vm_compute; reflexivity|].
  split; [vm_compute; reflexivity|].
  split; [vm_compute; reflexivity|].
  vm_compute. lia.
Qed.

(** C10, as stated, fails: two [info] calls on the same logger that
    differ only in their keyword fields, one of them passing
    [logger_instance=None], emit different records. *)
Lemma C10_logger_instance_counterexample :
  written state_X (info quiet "m" None ∅ state_X).2
  = [line_of (info quiet "m" None ∅ state_X)]
  /\ written state_X
       (info quiet "m" None {["logger_instance" := VNone]} state_X).2
     = [line_of (info quiet "m" None {["logger_instance" := VNone]} state_X)]
  /\ line_of (info quiet "m" None ∅ state_X)
     <> line_of (info quiet "m" None {["logger_instance" := VNone]} state_X)
  /\ field "environment" (line_of (info quiet "m" None ∅ state_X))
     = Some (JStr "development")
  /\ field "environment"
       (line_of (info quiet "m" None {["logger_instance" := VNone]} state_X))
     = Some (JStr "unknown")
  /\ field "trace_id" (line_of (info quiet "m" None ∅ state_X))
     = Some (JStr "X")
  /\ field "trace_id"
       (line_of (info quiet "m" None {["logger_instance" := VNone]} state_X))
     = Some JNull.
Proof. vm_compute. repeat split. discriminate. Qed.

(** C10, amended: for two calls of the same method on the same logger
    that differ only in their keyword fields, neither using the key
    [logger_instance], any record emitted by one is identical to any
    record emitted by the other; when, in addition, no keyword field
    names a parameter of the call ([self], [level], [message],
    [trace_id]), an attribute of the log record or its method
    [getMessage], the two calls have the same outcome, written lines and
    final logger state included. *)
Theorem C10_kwargs_not_serialized (m : method) (amb : ambient) (message : string)
    (trace_id : option string) (kwargs kwargs' : gmap string pyval)
    (st : state) :
  (keeps_logger kwargs -> keeps_logger kwargs' ->
   forall line line',
     In line (written st (call m amb message trace_id kwargs st).2) ->
     In line' (written st (call m amb message trace_id kwargs' st).2) ->
     line = line')
  /\ (plain kwargs -> plain kwargs' ->
      call m amb message trace_id kwargs st
      = call m amb message trace_id kwargs' st).
Proof.
  split.
  - intros Hk Hk' line line' Hin Hin'.
    apply in_written_call in Hin, Hin'. cbv zeta in Hin, Hin'.
    destruct (make_extra kwargs !! "getMessage") as [v|] eqn:Hg;
      [now rewrite (format_shadowed _ _ _ _ _ _ Hg) in Hin|].
    destruct (make_extra kwargs' !! "getMessage") as [v|] eqn:Hg';
      [now rewrite (format_shadowed _ _ _ _ _ _ Hg') in Hin'|].
    rewrite (format_extra m _ amb message (make_extra kwargs) (make_extra kwargs'))
      in Hin; [congruence | now rewrite !make_extra_logger | congruence].
  - intros Hp Hp'. rewrite !call_spec. cbv zeta.
    rewrite !plain_accepted, !plain_no_overwrite by assumption.
    destruct (plain_format m
                (with_trace_id (py_or trace_id (current_trace_id (this st))) (this st))
                amb message kwargs Hp) as (-> & _).
    destruct (plain_format m
                (with_trace_id (py_or trace_id (current_trace_id (this st))) (this st))
                amb message kwargs' Hp') as (-> & _).
    reflexivity.
Qed.

Lemma C10_kwargs_not_serialized_witness :
  call (Leveled INFO) quiet "m" None {["user" := VStr "bob"]} state_X
  = call (Leveled INFO) quiet "m" None {["attempt" := VInt 3]} state_X.
Proof.
  apply (proj2 (C10_kwargs_not_serialized (Leveled INFO) quiet "m" None
                  {["user" := VStr "bob"]} {["attempt" := VInt 3]} state_X)).
  - repeat split; vm_compute; repeat constructor.
  - repeat split; vm_compute; repeat constructor.
Defined.

End RecordClaims.

(** ** Scenarios *)

Section Scenarios.

(** [set_trace_id("X")], [info("m")], [info("m2", trace_id="Y")],
    [info("m3")]: the records carry ["X"], ["Y"], ["X"]. *)
Example scenario_override :
  map (field "trace_id")
      (stream
         ((set_trace_id "X" ;;
           info quiet "m" None ∅ ;;
           info quiet "m2" (Some "Y") ∅ ;;
           info quiet "m3" None ∅) state_X).2)
  = [Some (JStr "X"); Some (JStr "Y"); Some (JStr "X")].
Proof. vm_compute. reflexivity. Qed.

(** [clear_trace_id()] then [info("m")]: the record carries null. *)
Example scenario_clear :
  map (field "trace_id")
      (stream ((clear_trace_id ;; info quiet "m" None ∅) state_X).2)
  = [Some JNull].
Proof. vm_compute. reflexivity. Qed.

(** A [debug] call on a logger set to INFO writes nothing. *)
Example scenario_filtered :
  debug quiet "m" (Some "Y") ∅ state_X = (Ok tt, state_X).
Proof. vm_compute. reflexivity. Qed.

(** A keyword field that names an attribute of the record makes the call
    raise [KeyError]; the slot then keeps the override. *)
Example scenario_reserved_keyword :
  exists st',
    info quiet "m" (Some "Y") {["name" := VStr "bob"]} state_X
    = (Raise KeyError, st')
    /\ stream st' = []
    /\ current_trace_id (this st') = Some "Y".
Proof. eexists. vm_compute. repeat split. Qed.

(** A keyword field [level] given to a leveled method is passed on to
    [_log_with_context] beside the level of the method: the call raises
    [TypeError] and touches nothing; [exception], which does not go
    through [_log_with_context], takes it as one more field. *)
Example scenario_level_keyword :
  info quiet "m" (Some "Y") {["level" := VInt 1]} state_X
  = (Raise TypeError, state_X)
  /\ written state_X
       (exception quiet "m" (Some "Y") {["level" := VInt 1]} state_X).2
     = [line_of (exception quiet "m" (Some "Y") {["level" := VInt 1]} state_X)]
  /\ field "trace_id"
       (line_of (exception quiet "m" (Some "Y") {["level" := VInt 1]} state_X))
     = Some (JStr "Y").
Proof. vm_compute. repeat split. Qed.

(** [taskName] is an attribute of the record from Python 3.12 on: there
    the keyword is refused, before it is one more field. *)
Example scenario_taskName :
  (info quiet "m" None {["taskName" := VStr "t"]} state_X).1 = Raise KeyError
  /\ (info {| now := now quiet; handled := None; task_names := false |}
         "m" None {["taskName" := VStr "t"]} state_X).1 = Ok tt.
Proof. vm_compute. split; reflexivity. Qed.

(** A keyword field named [getMessage] hides the method of the record:
    formatting fails, the handler reports the error and nothing is
    written. *)
Example scenario_shadowed_method :
  info quiet "m" None {["getMessage" := VStr "x"]} state_X
  = (Ok tt, {| this := logger_X; stream := []; reported := [TypeError] |}).
Proof. vm_compute. reflexivity. Qed.

(** The invocation driver: a trace id is set up, then a record is
    written with it. *)
Example scenario_setup :
  map (field "trace_id")
      (stream
         ((setup_trace_id
             {| getpid := 4242; gethostname := "host";
                uuid4 := "123e4567-e89b-42d3-a456-426614174000" |} ;;
           info quiet "Lambda execution started" None ∅) state_X).2)
  = [Some (JStr "4242@host/123e4567-e89b-42d3-a456-426614174000-0000000000000000")].
Proof. vm_compute. reflexivity. Qed.

End Scenarios.

Section ClassifierClaims.

(** C5, as stated, fails: ["STAGE"] is not a key of [ENV_MAPPING], so it
    classifies to development, not to staging. *)
Lemma C5_STAGE_counterexample :
  _detect_environment {["ENVIRONMENT" := "STAGE"]} = "development"
  /\ _detect_environment {["ENVIRONMENT" := "STAGE"]} <> "staging".
Proof. vm_compute. split; [reflexivity | discriminate]. Qed.

(** C5, amended: ["production"] classifies to production, ["STAGING"] to
    staging, ["Hotfixes"] to hotfixes, and a value that is not a key of
    the mapping (["unknown-value"], and also ["STAGE"]) to development;
    on the direct path the result is the mapping's entry for the
    lower-case, trimmed value, matched exactly, and development when
    there is none; the classifier never raises and always returns one of
    the four environments. *)
Theorem C5_direct_classification :
  (_detect_environment {["ENVIRONMENT" := "production"]} = "production"
   /\ _detect_environment {["ENVIRONMENT" := "STAGING"]} = "staging"
   /\ _detect_environment {["ENVIRONMENT" := "Hotfixes"]} = "hotfixes"
   /\ _detect_environment {["ENVIRONMENT" := "unknown-value"]} = "development"
   /\ _detect_environment {["ENVIRONMENT" := "STAGE"]} = "development")
  /\ (forall environ v,
        selected (env_sources environ) v ->
        contains "lambda" (lower v) = false ->
        (In (strip (lower v)) environments ->
         _detect_environment environ = strip (lower v))
        /\ (~ In (strip (lower v)) environments ->
            _detect_environment environ = "development"))
  /\ (forall environ, In (_detect_environment environ) environments).
Proof.
  split; [vm_compute; repeat split|]. split.
  - intros environ v Hsel Hdirect. unfold _detect_environment.
    rewrite (detect_loop_selected _ _ Hsel). unfold classify_signal.
    rewrite Hdirect. cbv zeta. rewrite ENV_MAPPING_lookup.
    split; intros H; case_decide; try contradiction; reflexivity.
  - intros environ. apply detect_loop_range.
Qed.

Lemma C5_direct_classification_witness :
  _detect_environment {["ENV" := " Production "]} = strip (lower " Production ").
Proof.
  apply (proj1 (proj2 C5_direct_classification) {["ENV" := " Production "]}
           " Production ").
  - exists [None], [None; None; Some "development"].
    vm_compute. repeat constructor.
  - vm_compute. reflexivity.
  - vm_compute. tauto.
Defined.

(** C6: on the platform-marker path (the lower-case value contains
    ["lambda"]) a signal value that contains both ["staging"] and
    ["prod"] resolves to production; the sub-patterns are looked for as
    substrings of the lower-case value, in the order prod/production,
    then staging/stage, then hotfix, and anything else is development;
    two values with the same lower-case form classify alike. *)
Theorem C6_platform_marker_precedence (environ : gmap string string) (v : string) :
  selected (env_sources environ) v ->
  contains "lambda" (lower v) = true ->
  (contains "staging" (lower v) = true -> contains "prod" (lower v) = true ->
   _detect_environment environ = "production")
  /\ (contains "prod" (lower v) || contains "production" (lower v) = true ->
      _detect_environment environ = "production")
  /\ (contains "prod" (lower v) = false ->
      contains "staging" (lower v) || contains "stage" (lower v) = true ->
      _detect_environment environ = "staging")
  /\ (contains "prod" (lower v) = false ->
      contains "staging" (lower v) || contains "stage" (lower v) = false ->
      contains "hotfix" (lower v) = true ->
      _detect_environment environ = "hotfixes")
  /\ (contains "prod" (lower v) = false ->
      contains "staging" (lower v) || contains "stage" (lower v) = false ->
      contains "hotfix" (lower v) = false ->
      _detect_environment environ = "development")
  /\ (forall environ' v',
        selected (env_sources environ') v' -> lower v' = lower v ->
        _detect_environment environ' = _detect_environment environ).
Proof.
  intros Hsel Hmarker. unfold _detect_environment.
  rewrite (detect_loop_selected _ _ Hsel).
  assert (Hprod : contains "prod" (lower v) = false ->
                  contains "production" (lower v) = false).
  { intros Hp. destruct (contains "production" (lower v)) eqn:E; [|reflexivity].
    apply (contains_append "prod" "uction") in E. congruence. }
  unfold classify_signal. rewrite Hmarker.
  repeat split.
  - intros _ Hp. now rewrite Hp.
  - intros Hp. now rewrite Hp.
  - intros Hp Hs. now rewrite Hp, (Hprod Hp), Hs.
  - intros Hp Hs Hh. now rewrite Hp, (Hprod Hp), Hs, Hh.
  - intros Hp Hs Hh. now rewrite Hp, (Hprod Hp), Hs, Hh.
  - intros environ' v' Hsel' Hlow.
    rewrite (detect_loop_selected _ _ Hsel'). unfold classify_signal.
    now rewrite Hlow, Hmarker.
Qed.

Lemma C6_platform_marker_precedence_witness :
  _detect_environment {["AWS_LAMBDA_FUNCTION_NAME" := "Staging-Lambda-PROD"]}
  = "production".
Proof.
  assert (Hsel : selected
                   (env_sources {["AWS_LAMBDA_FUNCTION_NAME" := "Staging-Lambda-PROD"]})
                   "Staging-Lambda-PROD").
  { exists [None; None; None], [Some "development"].
    vm_compute. repeat constructor. }
  assert (Hmarker : contains "lambda" (lower "Staging-Lambda-PROD") = true).
  { vm_compute. reflexivity. }
  destruct (C6_platform_marker_precedence _ _ Hsel Hmarker) as (Hboth & _).
  apply Hboth; vm_compute; reflexivity.
Defined.

End ClassifierClaims.

Section ConstructionClaims.

(** C7: [setup_trace_id(logger)] returns the string
    [<pid>@<hostname>/<uuid4>-<suffix>] whose suffix is sixteen zero
    characters, and when it returns the logger's current trace id is that
    same string; nothing else of the logger changes and nothing is
    written. *)
Theorem C7_setup_trace_id_shape (p : process) (st : state) :
  exists trace_id suffix,
    setup_trace_id p st
    = (Ok trace_id,
       {| this := with_trace_id (Some trace_id) (this st);
          stream := stream st;
          reported := reported st |})
    /\ trace_id
       = str_of_int (getpid p) +:+ "@" +:+ gethostname p +:+ "/"
         +:+ uuid4 p +:+ "-" +:+ suffix
    /\ suffix = "0000000000000000"
    /\ String.length suffix = 16%nat
    /\ current_trace_id (this (setup_trace_id p st).2) = Some trace_id.
Proof.
  eexists _, (zfill "0" 16). repeat split.
Qed.

(** C8: [get_logger(name, level)] succeeds exactly for the level names of
    [logging], written in any case: for such a name it returns a logger
    set to the level of that name, with the environment detected and no
    current trace id; for every other string construction raises. *)
Theorem C8_get_logger_level (w : world) (name level : string) :
  (valid_level level ->
   exists lg n,
     get_logger w name level = inr lg
     /\ _nameToLevel !! upper level = Some n
     /\ logger_level lg = n
     /\ environment lg = _detect_environment (environ w)
     /\ current_trace_id lg = None)
  /\ (~ valid_level level -> exists e, get_logger w name level = inl e).
Proof.
  unfold valid_level, get_logger, __init__.
  destruct (decide (In (upper level) level_names)) as [Hin|Hout].
  - split; [intros _ | intros H; contradiction].
    cbv [level_names In] in Hin.
    repeat (destruct Hin as [<-|Hin]; [eexists _, _; repeat split|]).
    destruct Hin.
  - split; [intros H; contradiction | intros _].
    destruct (decide (upper level = "BASIC_FORMAT")) as [->|Hb];
      [eexists; reflexivity|].
    destruct (decide (upper level = "_STYLES")) as [->|Hs];
      [eexists; reflexivity|].
    rewrite module_attrs_other by assumption. eexists; reflexivity.
Qed.

Lemma C8_get_logger_level_witness :
  exists lg,
    get_logger bare_world "RMRForecast" "info" = inr lg /\ logger_level lg = 20.
Proof.
  assert (Hvalid : valid_level "info").
  { vm_compute. tauto. }
  destruct (proj1 (C8_get_logger_level bare_world "RMRForecast" "info") Hvalid)
    as (lg & n & Hlg & Hn & Hlevel & _).
  exists lg. split; [exact Hlg|].
  rewrite Hlevel. vm_compute in Hn. now injection Hn as <-.
Defined.

End ConstructionClaims.

(** * Further properties of the logger *)

Section RecordContents.

(** X1: the message of a call, whatever characters it holds, is read back
    unchanged from the emitted line, next to the severity name of the
    method, the name of the logger and the clock reading. *)
Theorem X1_record_content_read_back (m : method) (amb : ambient)
    (message : string) (trace_id : option string)
    (kwargs : gmap string pyval) (st : state) (line : string) :
  In line (written st (call m amb message trace_id kwargs st).2) ->
  field "message" line = Some (JStr message)
  /\ field "level" line = Some (JStr (getLevelName (severity m)))
  /\ field "logger" line = Some (JStr (logger_name (this st)))
  /\ field "timestamp" line = Some (JStr (now amb)).
Proof.
  intros Hin. apply in_written_call in Hin. cbv zeta in Hin.
  apply format_inv in Hin as (d & Hd & ->).
  unfold field. rewrite loads_dumps.
  unfold log_data, getMessage in Hd. cbn [extra_dict record_of] in Hd.
  destruct (make_extra kwargs !! "getMessage"); [discriminate|].
  injection Hd as <-.
  destruct m; repeat split; reflexivity.
Qed.

Lemma X1_record_content_read_back_witness :
  field "message"
    (line_of (info quiet (String dquote (String backslash newline)) None ∅ state_X))
  = Some (JStr (String dquote (String backslash newline))).
Proof.
  apply (X1_record_content_read_back (Leveled INFO) quiet
           (String dquote (String backslash newline)) None ∅ state_X).
  vm_compute. left. reflexivity.
Defined.

(** X2: the [module], [function] and [line] fields never locate the code
    that called the logger: they are those of the statement of
    [logger.py] that calls [logging], line 159 of [_log_with_context] for
    the leveled methods and line 197 of [exception]. *)
Theorem X2_call_site_is_the_wrapper (m : method) (amb : ambient)
    (message : string) (trace_id : option string)
    (kwargs : gmap string pyval) (st : state) (line : string) :
  In line (written st (call m amb message trace_id kwargs st).2) ->
  field "module" line = Some (JStr "logger")
  /\ field "function" line
     = Some (JStr match m with
                  | Leveled _ => "_log_with_context"
                  | Exception => "exception"
                  end)
  /\ field "line" line
     = Some (JInt match m with Leveled _ => 159 | Exception => 197 end).
Proof.
  intros Hin. apply in_written_call in Hin. cbv zeta in Hin.
  apply format_inv in Hin as (d & Hd & ->).
  unfold field. rewrite loads_dumps.
  unfold log_data, getMessage in Hd. cbn [extra_dict record_of] in Hd.
  destruct (make_extra kwargs !! "getMessage"); [discriminate|].
  injection Hd as <-.
  destruct m; repeat split; reflexivity.
Qed.

Lemma X2_call_site_is_the_wrapper_witness :
  field "line" (line_of (warning quiet "m" None ∅ state_X)) = Some (JInt 159).
Proof.
  apply (X2_call_site_is_the_wrapper (Leveled WARNING) quiet "m" None ∅ state_X).
  vm_compute. left. reflexivity.
Defined.

End RecordContents.

Section CallEffects.

(** X3: two kinds of call are without any effect.  A call whose keyword
    fields name none of its parameters and whose severity is below the
    effective level of the logger returns normally, writes nothing and
    leaves the logger as it was, also when its keyword fields would make
    [makeRecord] raise.  A call one of whose keyword fields names a
    parameter filled by position ([self], [message], [trace_id], and for
    the five leveled methods [level], which they pass on beside the level
    of their own) raises [TypeError] before the slot or the stream is
    touched, whatever the level of the logger. *)
Theorem X3_filtered_call_is_noop (m : method) (amb : ambient)
    (message : string) (trace_id : option string)
    (kwargs : gmap string pyval) (st : state) :
  (accepted m kwargs ->
   level_number (severity m)
   < getEffectiveLevel (logger_level (this st)) (parent_level (this st)) ->
   call m amb message trace_id kwargs st = (Ok tt, st))
  /\ (~ accepted m kwargs ->
      call m amb message trace_id kwargs st = (Raise TypeError, st)).
Proof.
  rewrite call_spec. cbv zeta. split.
  - intros Hacc Hlt. apply accepted_rebinds in Hacc. rewrite Hacc.
    unfold isEnabledFor.
    destruct (Z.leb_spec (getEffectiveLevel (logger_level (this st))
                            (parent_level (this st)))
                (level_number (severity m))); [lia | reflexivity].
  - intros Hrej. rewrite accepted_rebinds in Hrej.
    destruct (rebinds _ _); [reflexivity | contradiction].
Qed.

Lemma X3_filtered_call_is_noop_witness :
  call (Leveled DEBUG) quiet "m" (Some "Y") {["name" := VStr "bob"]} state_X
  = (Ok tt, state_X)
  /\ call (Leveled DEBUG) quiet "m" (Some "Y") {["level" := VInt 1]} state_X
     = (Raise TypeError, state_X).
Proof.
  split.
  - apply (proj1 (X3_filtered_call_is_noop (Leveled DEBUG) quiet "m" (Some "Y")
                    {["name" := VStr "bob"]} state_X)).
    + vm_compute. repeat constructor.
    + vm_compute. reflexivity.
  - apply (proj2 (X3_filtered_call_is_noop (Leveled DEBUG) quiet "m" (Some "Y")
                    {["level" := VInt 1]} state_X)).
    vm_compute. intros H. inversion H as [|? ? _ H']. inversion H' as [|? ? Hl _].
    discriminate Hl.
Defined.

(** X4: the slot is restored only when the call returns.  A call that
    binds its arguments and passes the level filter with a keyword field
    naming an attribute of the record (on the interpreter that runs;
    [taskName] is one from Python 3.12 on) raises [KeyError], writes
    nothing, and leaves the effective trace id of the call in the slot; a
    following call without explicit trace id then emits that leaked
    id. *)
Theorem X4_override_leaks_on_KeyError (m : method) (amb : ambient)
    (message : string) (trace_id : option string)
    (kwargs : gmap string pyval) (st : state) (k : string) (v : pyval) :
  accepted m kwargs ->
  isEnabledFor (this st) (severity m) = true ->
  In k (reserved_keys (task_names amb)) ->
  kwargs !! k = Some v ->
  exists st',
    call m amb message trace_id kwargs st = (Raise KeyError, st')
    /\ stream st' = stream st
    /\ current_trace_id (this st')
       = py_or trace_id (current_trace_id (this st))
    /\ forall m2 amb2 message2 kwargs2 line,
         keeps_logger kwargs2 ->
         In line (written st' (call m2 amb2 message2 None kwargs2 st').2) ->
         field "trace_id" line
         = Some (of_opt (py_or trace_id (current_trace_id (this st)))).
Proof.
  intros Hacc Hen Hk Hv.
  assert (Hov : overwrites (task_names amb) (make_extra kwargs) = true).
  { unfold overwrites. apply existsb_exists. exists k. split; [exact Hk|].
    apply bool_decide_eq_true. exists v.
    rewrite make_extra_other
      by now apply (reserved_not_logger_instance (task_names amb)).
    exact Hv. }
  apply accepted_rebinds in Hacc.
  rewrite call_spec. cbv zeta. rewrite Hacc, Hen, Hov.
  eexists. split; [reflexivity|]. cbn [stream this current_trace_id with_trace_id].
  repeat split.
  intros m2 amb2 message2 kwargs2 line Hk2 Hin.
  rewrite (trace_id_field _ _ _ _ _ _ _ Hk2 Hin). reflexivity.
Qed.

Lemma X4_override_leaks_on_KeyError_witness :
  exists st',
    call (Leveled INFO) quiet "m" (Some "Y") {["name" := VStr "bob"]} state_X
    = (Raise KeyError, st')
    /\ current_trace_id (this st') = Some "Y".
Proof.
  assert (Hacc : accepted (Leveled INFO)
                   ({["name" := VStr "bob"]} : gmap string pyval)).
  { vm_compute. repeat constructor. }
  assert (Hen : isEnabledFor (this state_X) (severity (Leveled INFO)) = true).
  { vm_compute. reflexivity. }
  assert (Hk : In "name" (reserved_keys (task_names quiet))).
  { vm_compute. tauto. }
  assert (Hv : ({["name" := VStr "bob"]} : gmap string pyval) !! "name"
               = Some (VStr "bob")).
  { vm_compute. reflexivity. }
  destruct (X4_override_leaks_on_KeyError (Leveled INFO) quiet "m" (Some "Y")
              {["name" := VStr "bob"]} state_X "name" (VStr "bob")
              Hacc Hen Hk Hv)
    as (st' & Hcall & _ & Hcur & _).
  exists st'. split; [exact Hcall | exact Hcur].
Defined.

(** X5: [set_trace_id] and [clear_trace_id] write nothing and change only
    the slot; after [set_trace_id(t)] a call without explicit trace id
    emits [t], the empty string included, and after [clear_trace_id()] it
    emits null (the keyword fields leaving the logger reference alone). *)
Theorem X5_set_and_clear_trace_id (t : string) (st : state)
    (m : method) (amb : ambient) (message : string)
    (kwargs : gmap string pyval) (line : string) :
  keeps_logger kwargs ->
  (set_trace_id t st).1 = Ok tt
  /\ (clear_trace_id st).1 = Ok tt
  /\ stream (set_trace_id t st).2 = stream st
  /\ stream (clear_trace_id st).2 = stream st
  /\ (In line (written (set_trace_id t st).2
                 (call m amb message None kwargs (set_trace_id t st).2).2) ->
      field "trace_id" line = Some (JStr t))
  /\ (In line (written (clear_trace_id st).2
                 (call m amb message None kwargs (clear_trace_id st).2).2) ->
      field "trace_id" line = Some JNull).
Proof.
  intros Hk. repeat split; try reflexivity; intros Hin.
  - rewrite (trace_id_field _ _ _ _ _ _ _ Hk Hin). reflexivity.
  - rewrite (trace_id_field _ _ _ _ _ _ _ Hk Hin). reflexivity.
Qed.

Lemma X5_set_and_clear_trace_id_witness :
  field "trace_id"
    (hd "" (written (clear_trace_id state_X).2
              (call (Leveled INFO) quiet "m" None ∅ (clear_trace_id state_X).2).2))
  = Some JNull.
Proof.
  apply (X5_set_and_clear_trace_id "unused" state_X (Leveled INFO) quiet "m" ∅).
  - reflexivity.
  - vm_compute. left. reflexivity.
Defined.

Lemma run_all_keeps (ops : list operation) (st : state) :
  logger_name (this (run_all ops st)) = logger_name (this st)
  /\ logger_level (this (run_all ops st)) = logger_level (this st)
  /\ parent_level (this (run_all ops st)) = parent_level (this st)
  /\ environment (this (run_all ops st)) = environment (this st)
  /\ exists added, stream (run_all ops st) = stream st ++ added.
Proof.
  revert st. induction ops as [|op ops IH]; intros st.
  - cbn [run_all]. repeat split. exists []. now rewrite app_nil_r.
  - cbn [run_all].
    assert (Hop : logger_name (this (run op st).2) = logger_name (this st)
                  /\ logger_level (this (run op st).2) = logger_level (this st)
                  /\ parent_level (this (run op st).2) = parent_level (this st)
                  /\ environment (this (run op st).2) = environment (this st)
                  /\ exists added, stream (run op st).2 = stream st ++ added).
    { destruct op as [m amb message trace_id kwargs | t | | p]; cbn [run].
      - rewrite call_spec. cbv zeta.
        destruct (rebinds _ _);
          [|destruct (isEnabledFor _ _);
            [destruct (overwrites _ _); [|destruct (format _ _ _)]|]];
          cbn [snd this stream with_trace_id logger_name logger_level
               parent_level environment];
          repeat split; eauto using app_nil_r;
          exists []; now rewrite app_nil_r.
      - repeat split. exists []. cbn. now rewrite app_nil_r.
      - repeat split. exists []. cbn. now rewrite app_nil_r.
      - repeat split. exists []. cbn. now rewrite app_nil_r. }
    destruct Hop as (Hn & Hl & Hp & He & added & Hs).
    destruct (IH (run op st).2) as (Hn' & Hl' & Hp' & He' & added' & Hs').
    rewrite Hn', Hl', Hp', He', Hs', Hs, Hn, Hl, Hp, He.
    repeat split. exists (added ++ added'). now rewrite app_assoc.
Qed.

(** X6: whatever sequence of operations is run on a logger, failed ones
    included, its name, level and environment stay what they were, and
    the lines already written stay in place: the stream only grows at its
    end. *)
Theorem X6_operations_keep_configuration (ops : list operation) (st : state) :
  logger_name (this (run_all ops st)) = logger_name (this st)
  /\ logger_level (this (run_all ops st)) = logger_level (this st)
  /\ parent_level (this (run_all ops st)) = parent_level (this st)
  /\ environment (this (run_all ops st)) = environment (this st)
  /\ exists added, stream (run_all ops st) = stream st ++ added.
Proof. exact (run_all_keeps ops st). Qed.

End CallEffects.

Section Composition.

Lemma environment_field (m : method) (amb : ambient) (message : string)
    (trace_id : option string) (kwargs : gmap string pyval) (st : state)
    (line : string) :
  keeps_logger kwargs ->
  In line (written st (call m amb message trace_id kwargs st).2) ->
  field "environment" line = Some (JStr (environment (this st))).
Proof.
  intros Hk Hin. apply in_written_call in Hin. cbv zeta in Hin.
  apply format_inv in Hin as (d & Hd & ->).
  unfold field. rewrite loads_dumps.
  unfold log_data, getMessage in Hd. cbn [extra_dict record_of] in Hd.
  rewrite (make_extra_logger _ Hk) in Hd. cbn [default val_truthy] in Hd.
  destruct (make_extra kwargs !! "getMessage"); [discriminate|].
  injection Hd as <-.
  destruct m; reflexivity.
Qed.

Lemma get_logger_inv (w : world) (name level : string) (lg : EnvironmentLogger) :
  get_logger w name level = inr lg ->
  logger_name lg = getLogger_name name
  /\ environment lg = _detect_environment (environ w)
  /\ parent_level lg = inherited_level w
  /\ current_trace_id lg = None
  /\ module_attrs !! upper level = Some (AInt (logger_level lg)).
Proof.
  unfold get_logger, __init__.
  destruct (module_attrs !! upper level) as [a|] eqn:Ha; [|discriminate].
  destruct a as [n|t|]; cbn [_checkLevel].
  - intros [= <-]. repeat split.
  - assert (Ht : t = "%(levelname)s:%(name)s:%(message)s").
    { unfold module_attrs in Ha. cbn [list_to_map foldr fst snd] in Ha.
      repeat (rewrite lookup_insert in Ha; case_decide; [congruence|]).
      now rewrite lookup_empty in Ha. }
    subst t. discriminate.
  - discriminate.
Qed.

(** X7: a logger obtained from [get_logger] keeps, through any later use,
    the environment classified from the process environment at
    construction: every record it emits (the keyword fields leaving the
    logger reference alone) carries that environment, one of the four
    names, and the name the logger was asked for ([root] for the empty
    name). *)
Theorem X7_records_carry_construction_environment (w : world)
    (nm level : string) (lg : EnvironmentLogger) (ops : list operation)
    (m : method) (amb : ambient) (message : string)
    (trace_id : option string) (kwargs : gmap string pyval) (line : string) :
  get_logger w nm level = inr lg ->
  keeps_logger kwargs ->
  In line (written (run_all ops (fresh lg))
             (call m amb message trace_id kwargs (run_all ops (fresh lg))).2) ->
  field "environment" line = Some (JStr (_detect_environment (environ w)))
  /\ In (_detect_environment (environ w)) environments
  /\ field "logger" line
     = Some (JStr (if nonempty nm then nm else "root")).
Proof.
  intros Hlg Hk Hin.
  destruct (get_logger_inv _ _ _ _ Hlg) as (Hname & Henv & _).
  destruct (run_all_keeps ops (fresh lg)) as (Hn & _ & _ & He & _).
  cbn [fresh this] in Hn, He.
  split; [|split].
  - rewrite (environment_field _ _ _ _ _ _ _ Hk Hin), He, Henv. reflexivity.
  - apply detect_loop_range.
  - apply in_written_call in Hin. cbv zeta in Hin.
    apply format_inv in Hin as (d & Hd & ->).
    unfold field. rewrite loads_dumps.
    unfold log_data, getMessage in Hd. cbn [extra_dict record_of] in Hd.
    destruct (make_extra kwargs !! "getMessage"); [discriminate|].
    injection Hd as <-.
    assert (Hlogger : forall ei base',
               assoc "logger"
                 (match ei with
                  | Some x => exception_fields x base'
                  | None => base'
                  end) = assoc "logger" base').
    { intros [x|] base'; [|reflexivity].
      apply assoc_exception_fields. cbv [exception_keys In]. intros H.
      repeat (destruct H as [H|H]; [discriminate H|]). exact H. }
    rewrite Hlogger. cbn [assoc String.eqb Ascii.eqb Bool.eqb name record_of
                          with_trace_id logger_name].
    rewrite Hn, Hname. reflexivity.
Qed.

Lemma X7_records_carry_construction_environment_witness :
  field "environment"
    (hd "" (written (fresh logger_X) (info quiet "m" None ∅ (fresh logger_X)).2))
  = Some (JStr "development").
Proof.
  assert (Hlg : exists lg, get_logger bare_world "RMRForecast" "INFO" = inr lg
                           /\ run_all [SetTraceId "X"] (fresh lg) = fresh logger_X).
  { eexists. split; vm_compute; reflexivity. }
  destruct Hlg as (lg & Hlg & Hrun).
  pose proof (X7_records_carry_construction_environment bare_world "RMRForecast"
                "INFO" lg [SetTraceId "X"] (Leveled INFO) quiet "m" None ∅) as H.
  rewrite Hrun in H.
  apply (H _ Hlg eq_refl). vm_compute. left. reflexivity.
Defined.

(** What a method does through a wrapper is what it does to the view:
    nothing of the view is lost when the outcome is stored back. *)
Lemma view_through (h : wrapper) (op : operation) (p : process_state) :
  view (through h (run op) p).1.2 (through h (run op) p).2
  = (run op (view h p)).2.
Proof.
  destruct (run_all_keeps [op] (view h p)) as (Hn & Hl & Hpl & He & _).
  cbn [run_all] in Hn, Hl, Hpl, He.
  unfold through. destruct (run op (view h p)) as [r [[n l pl e t] out errs]].
  cbn [fst snd this logger_name logger_level parent_level environment
       view] in *.
  subst. now destruct p as [[]].
Qed.

Lemma through_all_keeps (h : wrapper) (ops : list operation)
    (p : process_state) :
  own_environment (through_all h ops p).1 = own_environment h
  /\ shared (through_all h ops p).2 = shared p.
Proof.
  revert h p. induction ops as [|op ops IH]; intros h p; [now cbn|].
  cbn [through_all]. unfold through at 1 2.
  destruct (run op (view h p)) as [r st']. cbv beta iota.
  destruct (IH {| own_environment := own_environment h;
                  own_trace_id := current_trace_id (this st') |}
              {| shared := shared p; console := stream st';
                 errors := reported st' |}) as (He & Hl).
  now rewrite He, Hl.
Qed.

Lemma level_of_name (w : world) (nm level : string) (lg : EnvironmentLogger) :
  get_logger w nm level = inr lg ->
  _nameToLevel !! upper level = Some (logger_level lg).
Proof.
  intros Hlg.
  destruct (get_logger_inv _ _ _ _ Hlg) as (_ & _ & _ & _ & Hattr).
  remember (logger_level lg) as n eqn:En. clear En.
  destruct (decide (In (upper level) level_names)) as [Hin|Hout].
  - cbv [level_names In] in Hin.
    repeat (destruct Hin as [Hin|Hin];
            [rewrite <- Hin in *; vm_compute in Hattr;
             injection Hattr as <-; vm_compute; reflexivity|]).
    destruct Hin.
  - exfalso.
    destruct (decide (upper level = "BASIC_FORMAT")) as [Hb|Hb];
      [rewrite Hb in Hattr; vm_compute in Hattr; discriminate|].
    destruct (decide (upper level = "_STYLES")) as [Hs|Hs];
      [rewrite Hs in Hattr; vm_compute in Hattr; discriminate|].
    rewrite module_attrs_other in Hattr by assumption. discriminate.
Qed.

Lemma construct_inv (w : world) (level : string) (p p' : process_state)
    (h : wrapper) :
  construct w level p = (inr h, p') ->
  exists n,
    _nameToLevel !! upper level = Some n
    /\ own_environment h = _detect_environment (environ w)
    /\ own_trace_id h = None
    /\ its_name (shared p') = its_name (shared p)
    /\ its_level (shared p') = n
    /\ its_inherited (shared p') = inherited_level w
    /\ console p' = console p.
Proof.
  unfold construct.
  destruct (__init__ w (its_name (shared p)) level) as [e|lg] eqn:Hlg;
    [discriminate|].
  intros [= <- <-].
  destruct (get_logger_inv _ _ _ _ Hlg) as (_ & Henv & Hpar & _).
  exists (logger_level lg).
  cbn [own_environment own_trace_id shared its_name its_level its_inherited
       console].
  split; [exact (level_of_name _ _ _ _ Hlg)|]. now rewrite Henv, Hpar.
Qed.

(** A call with plain keyword fields through a wrapper: one line on the
    console when the effective level of the shared [logging.Logger] lets
    the severity through, nothing at all otherwise. *)
Lemma through_plain_call (h : wrapper) (p : process_state) (m : method)
    (amb : ambient) (message : string) (trace_id : option string)
    (kwargs : gmap string pyval) :
  plain kwargs ->
  let threshold :=
    getEffectiveLevel (its_level (shared p)) (its_inherited (shared p)) in
  (threshold <= level_number (severity m) ->
   exists line,
     through h (call m amb message trace_id kwargs) p
     = (Ok tt, h,
        {| shared := shared p; console := console p ++ [line];
           errors := errors p |}))
  /\ (level_number (severity m) < threshold ->
      through h (call m amb message trace_id kwargs) p = (Ok tt, h, p)).
Proof.
  intros Hp. cbv zeta.
  destruct (call_plain_returns m amb message trace_id kwargs (view h p) Hp)
    as (lines & Hcall & _ & Hone & Hnone).
  unfold through. rewrite Hcall.
  cbn [view this stream reported current_trace_id] in *.
  unfold isEnabledFor in Hone, Hnone.
  cbn [logger_level parent_level] in Hone, Hnone.
  destruct h as [e t]. cbn [own_environment own_trace_id] in *.
  split; intros Hcmp.
  - destruct Hone as (line & ->); [now apply Z.leb_le|]. eauto.
  - rewrite Hnone by now apply Z.leb_gt.
    rewrite app_nil_r. now destruct p.
Qed.

(** X12: the level that decides which methods write through a logger is
    the level of the [logging.Logger] of its name, which every logger
    built for that name shares: it is the level name given to the last
    [get_logger] for the name, not the one given when this logger was
    built.  A first logger being built with [level], then used in any
    way: a call with plain keyword fields through it writes exactly one
    line when its severity ([exception] counting as ERROR) reaches the
    level of that name (the inherited level for NOTSET), and is without
    effect below it.  Once a second logger has been built for the same
    name with [level'], the same holds of the first logger, used in any
    way since, with the level of [level'] in place of its own. *)
Theorem X12_level_threshold (w w' : world) (level level' : string)
    (p p1 p2 : process_state) (first second : wrapper)
    (ops ops' : list operation) (m : method) (amb : ambient)
    (message : string) (trace_id : option string)
    (kwargs : gmap string pyval) :
  construct w level p = (inr first, p1) ->
  construct w' level' (through_all first ops p1).2 = (inr second, p2) ->
  plain kwargs ->
  let before := through_all first ops p1 in
  let after := through_all before.1 ops' p2 in
  exists n n',
    _nameToLevel !! upper level = Some n
    /\ _nameToLevel !! upper level' = Some n'
    /\ (getEffectiveLevel n (inherited_level w) <= level_number (severity m) ->
        exists line,
          through before.1 (call m amb message trace_id kwargs) before.2
          = (Ok tt, before.1,
             {| shared := shared before.2;
                console := console before.2 ++ [line];
                errors := errors before.2 |}))
    /\ (level_number (severity m) < getEffectiveLevel n (inherited_level w) ->
        through before.1 (call m amb message trace_id kwargs) before.2
        = (Ok tt, before.1, before.2))
    /\ (getEffectiveLevel n' (inherited_level w') <= level_number (severity m) ->
        exists line,
          through after.1 (call m amb message trace_id kwargs) after.2
          = (Ok tt, after.1,
             {| shared := shared after.2;
                console := console after.2 ++ [line];
                errors := errors after.2 |}))
    /\ (level_number (severity m) < getEffectiveLevel n' (inherited_level w') ->
        through after.1 (call m amb message trace_id kwargs) after.2
        = (Ok tt, after.1, after.2)).
Proof.
  intros Hfirst Hsecond Hp. cbv zeta.
  destruct (construct_inv _ _ _ _ _ Hfirst)
    as (n & Hn & _ & _ & _ & Hlevel & Hinh & _).
  destruct (construct_inv _ _ _ _ _ Hsecond)
    as (n' & Hn' & _ & _ & _ & Hlevel' & Hinh' & _).
  destruct (through_all_keeps first ops p1) as (_ & Hs1).
  destruct (through_all_keeps (through_all first ops p1).1 ops' p2)
    as (_ & Hs2).
  exists n, n'. split; [exact Hn|]. split; [exact Hn'|].
  pose proof (through_plain_call (through_all first ops p1).1
                (through_all first ops p1).2
                m amb message trace_id kwargs Hp) as Hbefore.
  pose proof (through_plain_call
                (through_all (through_all first ops p1).1 ops' p2).1
                (through_all (through_all first ops p1).1 ops' p2).2
                m amb message trace_id kwargs Hp) as Hafter.
  cbv zeta in Hbefore, Hafter.
  assert (Hb : getEffectiveLevel
                 (its_level (shared (through_all first ops p1).2))
                 (its_inherited (shared (through_all first ops p1).2))
               = getEffectiveLevel n (inherited_level w))
    by now rewrite Hs1, Hlevel, Hinh.
  assert (Ha : getEffectiveLevel
                 (its_level
                    (shared (through_all (through_all first ops p1).1 ops' p2).2))
                 (its_inherited
                    (shared (through_all (through_all first ops p1).1 ops' p2).2))
               = getEffectiveLevel n' (inherited_level w'))
    by now rewrite Hs2, Hlevel', Hinh'.
  rewrite Hb in Hbefore. rewrite Ha in Hafter.
  destruct Hbefore as (Hb1 & Hb2). destruct Hafter as (Ha1 & Ha2).
  repeat split; assumption.
Qed.

Lemma X12_level_threshold_witness :
  exists first p1 second p2,
    construct bare_world "INFO"
      {| shared := {| its_name := "RMRForecast"; its_level := 0;
                      its_inherited := 30 |};
         console := []; errors := [] |} = (inr first, p1)
    /\ construct bare_world "ERROR" p1 = (inr second, p2)
    /\ (exists line,
          through first (call (Leveled INFO) quiet "m" None ∅) p1
          = (Ok tt, first,
             {| shared := shared p1; console := console p1 ++ [line];
                errors := errors p1 |}))
    /\ through first (call (Leveled INFO) quiet "m" None ∅) p2
       = (Ok tt, first, p2).
Proof.
  eexists _, _, _, _.
  split; [vm_compute; reflexivity|]. split; [vm_compute; reflexivity|].
  match goal with
  | |- (exists line, through ?f _ ?q1 = _) /\ through ?f _ ?q2 = _ =>
      pose proof (X12_level_threshold bare_world bare_world "INFO" "ERROR"
                    {| shared := {| its_name := "RMRForecast"; its_level := 0;
                                    its_inherited := 30 |};
                       console := []; errors := [] |}
                    q1 q2 f _ [] [] (Leveled INFO) quiet "m" None ∅
                    eq_refl eq_refl plain_empty)
        as (n & n' & Hn & Hn' & Hpass & _ & _ & Hsilent)
  end.
  vm_compute in Hn, Hn'. injection Hn as <-. injection Hn' as <-.
  split; [apply Hpass | apply Hsilent]; vm_compute; [discriminate | reflexivity].
Defined.

End Composition.

Section ClassifierPriority.

(** X8: the variables are consulted in the order ENVIRONMENT, ENV, STAGE,
    AWS_LAMBDA_FUNCTION_NAME; unset and empty ones are passed over, and
    the first one left decides alone, as if it were the value of
    ENVIRONMENT with nothing else set; with none left the environment is
    development. *)
Theorem X8_first_set_variable_decides (environ : gmap string string) :
  (forall v,
      environ !! "ENVIRONMENT" = Some v -> nonempty v = true ->
      _detect_environment environ = _detect_environment {["ENVIRONMENT" := v]})
  /\ (truthy (environ !! "ENVIRONMENT") = false ->
      forall v,
        environ !! "ENV" = Some v -> nonempty v = true ->
        _detect_environment environ = _detect_environment {["ENVIRONMENT" := v]})
  /\ (truthy (environ !! "ENVIRONMENT") = false ->
      truthy (environ !! "ENV") = false ->
      forall v,
        environ !! "STAGE" = Some v -> nonempty v = true ->
        _detect_environment environ = _detect_environment {["ENVIRONMENT" := v]})
  /\ (truthy (environ !! "ENVIRONMENT") = false ->
      truthy (environ !! "ENV") = false ->
      truthy (environ !! "STAGE") = false ->
      forall v,
        environ !! "AWS_LAMBDA_FUNCTION_NAME" = Some v -> nonempty v = true ->
        _detect_environment environ = _detect_environment {["ENVIRONMENT" := v]})
  /\ (truthy (environ !! "ENVIRONMENT") = false ->
      truthy (environ !! "ENV") = false ->
      truthy (environ !! "STAGE") = false ->
      truthy (environ !! "AWS_LAMBDA_FUNCTION_NAME") = false ->
      _detect_environment environ = "development").
Proof.
  assert (Hone : forall v, nonempty v = true ->
                   _detect_environment {["ENVIRONMENT" := v]} = classify_signal v).
  { intros v Hv. unfold _detect_environment, env_sources.
    rewrite lookup_singleton_eq. cbn [detect_loop]. now rewrite Hv. }
  assert (Hskip : forall o rest,
             truthy o = false -> detect_loop (o :: rest) = detect_loop rest).
  { intros [x|] rest Ho; cbn [detect_loop]; [|reflexivity].
    cbn [truthy] in Ho. now rewrite Ho. }
  assert (Htake : forall v rest,
             nonempty v = true -> detect_loop (Some v :: rest) = classify_signal v).
  { intros v rest Hv. cbn [detect_loop]. now rewrite Hv. }
  unfold _detect_environment at 1 3 5 7 9. unfold env_sources.
  repeat split.
  - intros v -> Hv. rewrite (Htake v _ Hv). now rewrite Hone.
  - intros H1 v -> Hv. rewrite (Hskip _ _ H1), (Htake v _ Hv). now rewrite Hone.
  - intros H1 H2 v -> Hv.
    rewrite (Hskip _ _ H1), (Hskip _ _ H2), (Htake v _ Hv). now rewrite Hone.
  - intros H1 H2 H3 v -> Hv.
    rewrite (Hskip _ _ H1), (Hskip _ _ H2), (Hskip _ _ H3), (Htake v _ Hv).
    now rewrite Hone.
  - intros H1 H2 H3 H4.
    rewrite (Hskip _ _ H1), (Hskip _ _ H2), (Hskip _ _ H3), (Hskip _ _ H4).
    reflexivity.
Qed.

Lemma X8_first_set_variable_decides_witness :
  _detect_environment
    (<["ENVIRONMENT" := ""]>
       (<["ENV" := "staging"]> {["STAGE" := "production"]}))
  = _detect_environment {["ENVIRONMENT" := "staging"]}.
Proof.
  apply (proj1 (proj2 (X8_first_set_variable_decides
                         (<["ENVIRONMENT" := ""]>
                            (<["ENV" := "staging"]> {["STAGE" := "production"]}))))).
  - vm_compute. reflexivity.
  - vm_compute. reflexivity.
  - vm_compute. reflexivity.
Defined.

End ClassifierPriority.

Section ExceptionFields.

Lemma wrap_truthy (layers : list (string * string)) (inner : exn) :
  exn_truthy inner = true -> exn_truthy (wrap layers inner) = true.
Proof. destruct layers as [|[c m] layers]; [trivial | reflexivity]. Qed.

Lemma root_exc_wrap (layers : list (string * string)) (inner : exn) :
  exn_truthy inner = true ->
  root_exc (wrap layers inner) = root_exc inner.
Proof.
  intros Ht. induction layers as [|[c m] layers IH]; [reflexivity|].
  cbn [wrap root_exc]. now rewrite (wrap_truthy _ _ Ht).
Qed.

(** X9: the exception fields of a record emitted by [exception] while an
    exception is being handled.  [exception_type] is its type name, and
    [exception_message] its text, or null when the exception is false in
    Python.  The root cause is where the walk along [__cause__] ends: it
    goes on through causes that are true and stops before a cause that is
    false; the root-cause fields are the type name and text of that
    exception, or null when it is false.  So for an exception that wraps
    an ordinary one without cause through any number of
    [raise ... from ...] layers they are those of the innermost one, and
    for a chain whose next cause is false they are those of the last
    exception before it.  [traceback] is the stripped concatenation of
    the last ten entries of the formatted stack trace, of all of them
    when there are fewer. *)
Theorem X9_exception_and_root_cause_fields (amb : ambient) (message : string)
    (trace_id : option string) (kwargs : gmap string pyval) (st : state)
    (e : exn) (tb_lines : list string) (line : string) :
  handled amb = Some {| exc_value := e; format_exception := tb_lines |} ->
  In line (written st (exception amb message trace_id kwargs st).2) ->
  field "exception_type" line = Some (JStr (type_name e))
  /\ field "exception_message" line
     = Some (if exn_truthy e then JStr (str_exn e) else JNull)
  /\ (exists r,
        root_cause e r
        /\ (forall r', root_cause e r' -> r' = r)
        /\ field "root_cause_type" line
           = Some (if exn_truthy r then JStr (type_name r) else JNull)
        /\ field "root_cause_message" line
           = Some (if exn_truthy r then JStr (str_exn r) else JNull))
  /\ (forall layers cls msg,
        e = wrap layers (Raised cls msg) ->
        field "root_cause_type" line = Some (JStr cls)
        /\ field "root_cause_message" line = Some (JStr msg))
  /\ (forall layers cls msg inner,
        e = wrap layers (RaisedFrom cls msg inner) ->
        exn_truthy inner = false ->
        field "root_cause_type" line = Some (JStr cls)
        /\ field "root_cause_message" line = Some (JStr msg))
  /\ field "traceback" line
     = Some (JStr (strip (String.concat ""
                            (skipn (length tb_lines - 10) tb_lines)))).
Proof.
  intros Hh Hin.
  apply (in_written_call Exception) in Hin. cbv zeta in Hin.
  apply format_inv in Hin as (d & Hd & ->).
  unfold field. rewrite loads_dumps.
  unfold log_data in Hd. destruct (getMessage _); [discriminate|].
  injection Hd as <-. cbn [exc_info record_of]. rewrite Hh.
  split; [reflexivity|]. split; [reflexivity|]. split; [|split; [|split]].
  - exists (root_exc e). split; [apply root_exc_root_cause|].
    split; [apply root_cause_unique|]. split; reflexivity.
  - intros layers cls msg ->.
    assert (Hroot : root_exc (wrap layers (Raised cls msg)) = Raised cls msg)
      by now apply root_exc_wrap.
    split; cbn; rewrite Hroot; reflexivity.
  - intros layers cls msg inner -> Hfalse.
    assert (Hroot : root_exc (wrap layers (RaisedFrom cls msg inner))
                    = RaisedFrom cls msg inner).
    { rewrite root_exc_wrap by reflexivity. cbn [root_exc]. now rewrite Hfalse. }
    split; cbn; rewrite Hroot; reflexivity.
  - cbn. now rewrite tb_str_last_n, join_concat.
Qed.

Lemma X9_exception_and_root_cause_fields_witness :
  field "root_cause_message" (line_of (exception handling "failed" None ∅ state_X))
  = Some (JStr "inner")
  /\ field "root_cause_type"
       (line_of (exception handling_falsy_cause "failed" None ∅ state_X))
     = Some (JStr "RuntimeError").
Proof.
  assert (Hin : In (line_of (exception handling "failed" None ∅ state_X))
                   (written state_X
                      (exception handling "failed" None ∅ state_X).2)).
  { vm_compute. left. reflexivity. }
  assert (Hin' : In (line_of (exception handling_falsy_cause "failed" None ∅
                                state_X))
                    (written state_X
                       (exception handling_falsy_cause "failed" None ∅
                          state_X).2)).
  { vm_compute. left. reflexivity. }
  destruct (X9_exception_and_root_cause_fields handling "failed" None ∅ state_X
              chained twelve_entries _ eq_refl Hin)
    as (_ & _ & _ & Hwrap & _).
  destruct (X9_exception_and_root_cause_fields handling_falsy_cause "failed"
              None ∅ state_X falsy_cause twelve_entries _ eq_refl Hin')
    as (_ & _ & _ & _ & Hstop & _).
  split.
  - apply (Hwrap [("RuntimeError", "outer")] "ValueError" "inner"). reflexivity.
  - apply (Hstop [] "RuntimeError" "outer" (Falsy "Empty" "inner"));
      reflexivity.
Defined.

End ExceptionFields.

Section TraceIds.

Lemma append_inv_head (a b c : string) : a +:+ b = a +:+ c -> b = c.
Proof.
  induction a as [|x a IH]; [easy|].
  rewrite !append_cons. intros [= H]. now apply IH.
Qed.

Lemma append_inv_tail (a b s : string) : a +:+ s = b +:+ s -> a = b.
Proof.
  intros H.
  assert (Hlen : String.length a = String.length b).
  { apply (f_equal String.length) in H. rewrite !length_append in H. lia. }
  revert b H Hlen. induction a as [|x a IH]; intros [|y b] H Hlen;
    try discriminate Hlen; [reflexivity|].
  rewrite !append_cons in H. injection H as -> H.
  f_equal. apply IH; [exact H | now injection Hlen].
Qed.

Lemma prefix_append_self (a b : string) : String.prefix a (a +:+ b) = true.
Proof.
  induction a as [|x a IH]; [now destruct b|].
  rewrite append_cons. cbn [String.prefix].
  destruct (ascii_dec x x); [exact IH | contradiction].
Qed.

(** X10: two trace ids set up in the same process (same process id and
    host name) begin with the same [<pid>@<hostname>/] and are equal only
    if their UUIDs are: the formatting keeps distinct UUIDs distinct. *)
Theorem X10_trace_ids_of_one_process (p p' : process) (st st' : state) :
  getpid p = getpid p' ->
  gethostname p = gethostname p' ->
  exists trace_id trace_id',
    (setup_trace_id p st).1 = Ok trace_id
    /\ (setup_trace_id p' st').1 = Ok trace_id'
    /\ String.prefix (str_of_int (getpid p) +:+ "@" +:+ gethostname p +:+ "/")
         trace_id = true
    /\ String.prefix (str_of_int (getpid p) +:+ "@" +:+ gethostname p +:+ "/")
         trace_id' = true
    /\ (trace_id = trace_id' <-> uuid4 p = uuid4 p').
Proof.
  intros Hpid Hhost. eexists _, _.
  split; [reflexivity|]. split; [reflexivity|].
  rewrite <- Hpid, <- Hhost.
  set (head := str_of_int (getpid p) +:+ "@" +:+ gethostname p +:+ "/").
  assert (Hshape : forall g,
             str_of_int (getpid p) +:+ "@" +:+ gethostname p +:+ "/" +:+ g
             +:+ "-" +:+ zfill "0" 16
             = head +:+ g +:+ "-" +:+ zfill "0" 16).
  { intros g. unfold head. now rewrite !append_assoc. }
  rewrite !Hshape.
  split; [apply prefix_append_self|]. split; [apply prefix_append_self|].
  split.
  - intros H. apply append_inv_head in H. now apply append_inv_tail in H.
  - now intros ->.
Qed.

Lemma X10_trace_ids_of_one_process_witness :
  (setup_trace_id {| getpid := 7; gethostname := "h"; uuid4 := "a" |} state_X).1
  <> (setup_trace_id {| getpid := 7; gethostname := "h"; uuid4 := "b" |} state_X).1.
Proof.
  destruct (X10_trace_ids_of_one_process
              {| getpid := 7; gethostname := "h"; uuid4 := "a" |}
              {| getpid := 7; gethostname := "h"; uuid4 := "b" |}
              state_X state_X eq_refl eq_refl)
    as (t & t' & -> & -> & _ & _ & Hiff).
  intros [= H]. apply Hiff in H. discriminate H.
Defined.

End TraceIds.

(** * The invocation driver *)

Section DriverMonad.

Lemma dbind_inr {A B} (m : D A) (k : A -> D B) (st st' : dstate) (b : B) :
  dbind m k st = (inr b, st') ->
  exists a st1, m st = (inr a, st1) /\ k a st1 = (inr b, st').
Proof.
  unfold dbind. destruct (m st) as [[e|a] st1]; [discriminate | eauto].
Qed.

Lemma dbind_inl {A B} (m : D A) (k : A -> D B) (st st' : dstate) (e : exn) :
  dbind m k st = (inl e, st') ->
  m st = (inl e, st')
  \/ exists a st1, m st = (inr a, st1) /\ k a st1 = (inl e, st').
Proof.
  unfold dbind. destruct (m st) as [[e0|a] st1]; [intros [= -> ->] | ]; eauto.
Qed.

Lemma dbind_returned {A B} (m : D A) (k : A -> D B) (st st1 : dstate) (a : A) :
  m st = (inr a, st1) -> dbind m k st = k a st1.
Proof. unfold dbind. now intros ->. Qed.


Lemma returns_dret {A} (P : A -> Prop) (a : A) : P a -> returns P (dret a).
Proof. intros Ha st a' st' [= <- _]. exact Ha. Qed.

Lemma returns_draise {A} (P : A -> Prop) (e : exn) : returns P (draise e).
Proof. intros st a st' H. discriminate H. Qed.

Lemma returns_dbind {A B} (P : B -> Prop) (m : D A) (k : A -> D B) :
  (forall a, returns P (k a)) -> returns P (dbind m k).
Proof.
  intros Hk st b st' H. apply dbind_inr in H as (a & st1 & _ & H).
  exact (Hk a st1 b st' H).
Qed.

Section Within.

Context (R : dstate -> dstate -> Prop).
Hypothesis R_refl : forall st, R st st.
Hypothesis R_trans : forall a b c, R a b -> R b c -> R a c.

Lemma within_dret {A} (a : A) : within R (dret a).
Proof. intros st. apply R_refl. Qed.

Lemma within_draise {A} (e : exn) : within R (@draise A e).
Proof. intros st. apply R_refl. Qed.

Lemma within_dbind {A B} (m : D A) (k : A -> D B) :
  within R m -> (forall a, within R (k a)) -> within R (dbind m k).
Proof.
  intros Hm Hk st. unfold dbind. specialize (Hm st).
  destruct (m st) as [[e|a] st1]; [exact Hm|].
  exact (R_trans _ _ _ Hm (Hk a st1)).
Qed.

Lemma within_try_except {A} (body : D A) (handler : exn -> D A) :
  within R body -> (forall e, within R (handler e)) ->
  within R (try_except body handler).
Proof.
  intros Hb Hh st. unfold try_except. specialize (Hb st).
  destruct (body st) as [[e|a] st1]; [|exact Hb].
  exact (R_trans _ _ _ Hb (Hh e st1)).
Qed.

Lemma within_retry {A} (w : collaborators) (retries : nat) (attempt : D A) :
  within R attempt -> within R (retry w retries attempt).
Proof.
  intros Ha. induction retries as [|n IH]; intros st; cbn [retry];
    specialize (Ha st); destruct (attempt st) as [[e|a] st1]; try exact Ha.
  destruct (is_RequestException w e); [|exact Ha].
  exact (R_trans _ _ _ Ha (IH st1)).
Qed.

End Within.

End DriverMonad.

Section DriverSteps.

Lemma steps_refl (t : string) (st : dstate) : steps t st st.
Proof.
  unfold steps. repeat split. exists [], [].
  rewrite !app_nil_r. repeat split; constructor.
Qed.

Lemma steps_trans (t : string) (a b c : dstate) :
  steps t a b -> steps t b c -> steps t a c.
Proof.
  intros (Hn & Hl & Hp & He & Hc & lines & reqs & Hs & Hr & Hlines & Hreqs)
         (Hn' & Hl' & Hp' & He' & Hc' & lines' & reqs' & Hs' & Hr' & Hlines' & Hreqs').
  unfold steps. repeat split; try congruence.
  exists (lines ++ lines'), (reqs ++ reqs').
  rewrite Hs', Hs, Hr', Hr, !app_assoc. repeat split.
  - intros Ht. apply Forall_app. split; [now apply Hlines|].
    apply Hlines'. now rewrite Hc.
  - apply Forall_app. now split.
Qed.

(** A method of the logger called from the driver, without trace id and
    without keyword fields. *)
Lemma steps_logger_call (t : string) (m : method) (message : string)
    (amb_of : dstate -> ambient) :
  within (steps t) (fun st => lift (call m (amb_of st) message None ∅) st).
Proof.
  intros st.
  destruct (call_plain_returns m (amb_of st) message None ∅ (log st) plain_empty)
    as (lines & Hcall & Hlines & _).
  unfold lift. rewrite Hcall. cbn [snd log sent this stream].
  unfold steps. repeat split.
  exists lines, []. rewrite app_nil_r. repeat split; [|constructor].
  intros Ht. apply Forall_forall. intros line Hin.
  apply list_elem_of_In in Hin. rewrite Hlines in Hin.
  rewrite (trace_id_field _ _ _ _ _ _ _ (proj1 plain_empty) Hin).
  cbn [py_or truthy]. now rewrite Ht.
Qed.

Lemma lift_call_returns (m : method) (amb : ambient) (message : string)
    (st : dstate) :
  (lift (call m amb message None ∅) st).1 = inr tt.
Proof.
  destruct (call_plain_returns m amb message None ∅ (log st) plain_empty)
    as (lines & Hcall & _).
  unfold lift. now rewrite Hcall.
Qed.

Lemma steps_logger_info (t : string) (w : collaborators) (message : string) :
  within (steps t) (logger_info w message).
Proof.
  exact (steps_logger_call t (Leveled INFO) message
           (fun st => {| now := clock w st; handled := None;
                   task_names := py_task_names w |})).
Qed.

Lemma steps_logger_warning (t : string) (w : collaborators) (message : string) :
  within (steps t) (logger_warning w message).
Proof.
  exact (steps_logger_call t (Leveled WARNING) message
           (fun st => {| now := clock w st; handled := None;
                   task_names := py_task_names w |})).
Qed.

Lemma steps_logger_exception (t : string) (w : collaborators) (e : exn)
    (message : string) :
  within (steps t) (logger_exception w e message).
Proof.
  exact (steps_logger_call t Exception message
           (fun st => {| now := clock w st;
                         handled := Some {| exc_value := e;
                                            format_exception := format_exception_of w e |};
                   task_names := py_task_names w |})).
Qed.

Lemma steps_get_secrets (t : string) (w : collaborators) (secret_name : string) :
  within (steps t) (get_secrets w secret_name).
Proof.
  unfold get_secrets. destruct (secret_value w secret_name).
  - apply within_draise, steps_refl.
  - apply within_dret, steps_refl.
Qed.

Lemma steps_getitem (t : string) (secret : gmap string string) (key : string) :
  within (steps t) (getitem secret key).
Proof.
  unfold getitem. destruct (secret !! key).
  - apply within_dret, steps_refl.
  - apply within_draise, steps_refl.
Qed.

Lemma steps_send (t : string) (request : post) (st : dstate) :
  header "X-Request-ID" (headers request) = Some t ->
  steps t st {| log := log st; sent := sent st ++ [request] |}.
Proof.
  intros Hh. unfold steps. cbn [log sent]. repeat split.
  exists [], [request]. rewrite app_nil_r. repeat split; repeat constructor.
  exact Hh.
Qed.

Lemma steps_get_token (t : string) (w : collaborators)
    (username password domain auth_api_url : string) :
  within (steps t) (get_token w username password domain auth_api_url t).
Proof.
  unfold get_token. cbv zeta.
  apply within_dbind; [apply steps_trans | | ].
  - intros st. now apply steps_send.
  - intros [e|token].
    + apply within_draise, steps_refl.
    + destruct (value_truthy token);
        [apply within_dret | apply within_draise]; apply steps_refl.
Qed.

Lemma steps_call_base_api (t : string) (w : collaborators) (token : value)
    (base_api_url : string) :
  within (steps t) (call_base_api w token t base_api_url).
Proof.
  unfold call_base_api. apply within_retry; [apply steps_trans|].
  unfold call_base_api_once. cbv zeta.
  apply within_dbind; [apply steps_trans | | ].
  - intros st. now apply steps_send.
  - intros [e|content_type text js].
    + apply within_draise, steps_refl.
    + destruct (_ && _).
      * destruct js; [apply within_draise | apply within_dret]; apply steps_refl.
      * apply within_dbind; [apply steps_trans | apply steps_logger_warning |].
        intros _. apply within_dret, steps_refl.
Qed.

Lemma steps_try_block (t : string) (w : collaborators) :
  within (steps t) (try_block w t).
Proof.
  unfold try_block.
  repeat first
    [ apply steps_logger_info
    | apply steps_get_secrets
    | apply steps_getitem
    | apply steps_get_token
    | apply steps_call_base_api
    | apply within_dret, steps_refl
    | apply within_draise, steps_refl
    | apply within_dbind; [apply steps_trans | | intros ?]
    | match goal with
      | |- within _ (match ?x with _ => _ end) => destruct x
      end ].
Qed.

Lemma steps_except_block (t : string) (w : collaborators) (e : exn) :
  within (steps t) (except_block w t e).
Proof.
  unfold except_block.
  apply within_dbind; [apply steps_trans | apply steps_logger_exception |].
  intros _. apply within_dret, steps_refl.
Qed.

End DriverSteps.

Section DriverRuns.

(** The state once [setup_trace_id] has run. *)
Lemma setup_step (w : collaborators) (st : dstate) :
  lift (setup_trace_id (proc w)) st
  = (inr (invocation_id w),
     {| log := {| this := with_trace_id (Some (invocation_id w)) (this (log st));
                  stream := stream (log st);
                  reported := reported (log st) |};
        sent := sent st |}).
Proof. reflexivity. Qed.

Lemma cleanup_step (st : dstate) :
  lift clear_trace_id st
  = (inr tt,
     {| log := {| this := with_trace_id None (this (log st));
                  stream := stream (log st);
                  reported := reported (log st) |};
        sent := sent st |}).
Proof. reflexivity. Qed.

Lemma returns_try_block (w : collaborators) (t : string) :
  returns (fun r => exists data,
             r = {| statusCode := 200; body := success_body data t |})
    (try_block w t).
Proof.
  unfold try_block.
  repeat (apply returns_dbind; intros ?).
  apply returns_dret. eauto.
Qed.

Lemma except_block_run (w : collaborators) (t : string) (e : exn) (st : dstate) :
  except_block w t e st
  = (inr {| statusCode := 500; body := error_body e t |},
     (logger_exception w e "Lambda execution failed" st).2).
Proof.
  unfold except_block, dbind.
  pose proof (lift_call_returns Exception
                {| now := clock w st;
                   handled := Some {| exc_value := e;
                                      format_exception := format_exception_of w e |};
                   task_names := py_task_names w |}
                "Lambda execution failed" st) as Hret.
  change (lift (call Exception _ _ None ∅) st)
    with (logger_exception w e "Lambda execution failed" st) in Hret.
  destruct (logger_exception w e "Lambda execution failed" st) as [[x|[]] st1];
    [discriminate Hret | reflexivity].
Qed.

(** The handler, cut at its [try] block: what the block did decides the
    response; the slot is emptied afterwards. *)
Lemma lambda_handler_run (w : collaborators) (st : dstate) :
  let t := invocation_id w in
  let st0 := (lift (setup_trace_id (proc w)) st).2 in
  exists resp st1,
    lambda_handler w st = (inr resp, (lift clear_trace_id st1).2)
    /\ steps t st0 st1
    /\ ((exists data,
           try_block w t st0 = (inr resp, st1)
           /\ resp = {| statusCode := 200; body := success_body data t |})
        \/ (exists e st2,
              try_block w t st0 = (inl e, st2)
              /\ st1 = (logger_exception w e "Lambda execution failed" st2).2
              /\ resp = {| statusCode := 500; body := error_body e t |})).
Proof.
  cbv zeta. unfold lambda_handler.
  rewrite (dbind_returned _ _ _ _ _ (setup_step w st)).
  rewrite setup_step. cbn [snd].
  set (st0 := {| log := _; sent := sent st |}).
  set (t := invocation_id w).
  unfold finally, try_except.
  pose proof (steps_try_block t w st0) as Hbody.
  destruct (try_block w t st0) as [[e|resp] st2] eqn:Etry.
  - rewrite except_block_run. rewrite cleanup_step.
    eexists _, _. split; [rewrite cleanup_step; reflexivity|].
    split.
    + apply (steps_trans t _ st2); [exact Hbody|].
      apply steps_logger_exception.
    + right. eauto.
  - rewrite cleanup_step.
    eexists _, _. split; [rewrite cleanup_step; reflexivity|].
    split; [exact Hbody|]. left.
    destruct (returns_try_block w t st0 resp st2 Etry) as (data & ->). eauto.
Qed.

(** X13: whatever the secret store and the two services do, an invocation
    never lets an exception out: it returns a response whose status code
    is 200 or 500, and when it returns the trace-id slot of the logger is
    empty again, on the failure path as on the success path. *)
Theorem X13_handler_always_answers_and_cleans_up (w : collaborators) (st : dstate) :
  exists resp st',
    lambda_handler w st = (inr resp, st')
    /\ (statusCode resp = 200 \/ statusCode resp = 500)
    /\ current_trace_id (this (log st')) = None.
Proof.
  destruct (lambda_handler_run w st) as (resp & st1 & Hrun & _ & Hcase).
  exists resp, (lift clear_trace_id st1).2. split; [exact Hrun|].
  split; [|reflexivity].
  destruct Hcase as [(data & _ & ->) | (e & st2 & _ & _ & ->)]; auto.
Qed.

(** X14: one trace id ties an invocation together: the id made by
    [setup_trace_id] is the [trace_id] of every record written during the
    invocation, the [X-Request-ID] header of every request sent, and the
    [traceId] member of the returned envelope. *)
Theorem X14_one_trace_id_per_invocation (w : collaborators) (st : dstate) :
  Forall (fun line => field "trace_id" line = Some (JStr (invocation_id w)))
    (written (log st) (log (lambda_handler w st).2))
  /\ Forall (fun r => header "X-Request-ID" (headers r) = Some (invocation_id w))
       (requested st (lambda_handler w st).2)
  /\ exists resp members,
       (lambda_handler w st).1 = inr resp
       /\ body resp = dumps_envelope members
       /\ In ("traceId", Text (invocation_id w)) members.
Proof.
  destruct (lambda_handler_run w st) as (resp & st1 & Hrun & Hsteps & Hcase).
  rewrite Hrun. cbn [fst snd]. rewrite cleanup_step in *. cbn [snd log sent stream].
  destruct Hsteps as (_ & _ & _ & _ & _ & lines & reqs & Hs & Hr & Hlines & Hreqs).
  rewrite setup_step in Hs, Hr, Hlines. cbn [snd log sent stream this] in Hs, Hr, Hlines.
  split; [|split].
  - unfold written. cbn [stream]. rewrite Hs, drop_app_length.
    now apply Hlines.
  - unfold requested. cbn [sent]. rewrite Hr, drop_app_length. exact Hreqs.
  - exists resp.
    destruct Hcase as [(data & _ & ->) | (e & st2 & _ & _ & ->)];
      eexists; (split; [reflexivity|]); (split; [reflexivity|]);
      cbn [In]; tauto.
Qed.

End DriverRuns.

Section DriverRequests.

Lemma count_app (f : post -> bool) (l l' : list post) :
  count f (l ++ l') = (count f l + count f l')%nat.
Proof. unfold count. now rewrite filter_app, length_app. Qed.

Lemma count_one (f : post -> bool) (r : post) :
  count f [r] = if f r then 1%nat else 0%nat.
Proof.
  unfold count. rewrite filter_cons, filter_nil.
  destruct (f r); case_decide; try congruence; reflexivity.
Qed.

Lemma grows_refl (st : dstate) : grows 0 0 st st.
Proof. exists []. rewrite app_nil_r. repeat split; cbn; lia. Qed.

Lemma grows_trans (a b a' b' : nat) (x y z : dstate) :
  grows a b x y -> grows a' b' y z -> grows (a + a') (b + b') x z.
Proof.
  intros (r & Hr & Ha & Hb) (r' & Hr' & Ha' & Hb').
  exists (r ++ r'). rewrite Hr', Hr, app_assoc, !count_app.
  repeat split; lia.
Qed.

Lemma grows_zero_trans (x y z : dstate) :
  grows 0 0 x y -> grows 0 0 y z -> grows 0 0 x z.
Proof. intros H H'. exact (grows_trans 0 0 0 0 x y z H H'). Qed.

Lemma grows_weaken (a b a' b' : nat) (x y : dstate) :
  (a <= a')%nat -> (b <= b')%nat -> grows a b x y -> grows a' b' x y.
Proof. intros Ha Hb (r & Hr & Ha0 & Hb0). exists r. repeat split; [exact Hr | lia | lia]. Qed.

Lemma grows_dbind {A B} (a b a' b' : nat) (m : D A) (k : A -> D B) :
  within (grows a b) m -> (forall x, within (grows a' b') (k x)) ->
  within (grows (a + a') (b + b')) (dbind m k).
Proof.
  intros Hm Hk st. unfold dbind. specialize (Hm st).
  destruct (m st) as [[e|x] st1].
  - apply (grows_weaken a b); [lia | lia | exact Hm].
  - exact (grows_trans _ _ _ _ _ _ _ Hm (Hk x st1)).
Qed.

Lemma grows_after_zero {A B} (a b : nat) (m : D A) (k : A -> D B) :
  within (grows 0 0) m -> (forall x, within (grows a b) (k x)) ->
  within (grows a b) (dbind m k).
Proof. intros Hm Hk. exact (grows_dbind 0 0 a b m k Hm Hk). Qed.

Lemma grows_logger_call (m : method) (message : string)
    (amb_of : dstate -> ambient) :
  within (grows 0 0) (fun st => lift (call m (amb_of st) message None ∅) st).
Proof.
  intros st.
  destruct (call_plain_returns m (amb_of st) message None ∅ (log st) plain_empty)
    as (lines & Hcall & _).
  unfold lift. rewrite Hcall. cbn [snd]. exists []. cbn [sent].
  rewrite app_nil_r. repeat split; cbn; lia.
Qed.

Lemma grows_logger_info (w : collaborators) (message : string) :
  within (grows 0 0) (logger_info w message).
Proof.
  exact (grows_logger_call (Leveled INFO) message
           (fun st => {| now := clock w st; handled := None;
                   task_names := py_task_names w |})).
Qed.

Lemma grows_logger_warning (w : collaborators) (message : string) :
  within (grows 0 0) (logger_warning w message).
Proof.
  exact (grows_logger_call (Leveled WARNING) message
           (fun st => {| now := clock w st; handled := None;
                   task_names := py_task_names w |})).
Qed.

Lemma grows_logger_exception (w : collaborators) (e : exn) (message : string) :
  within (grows 0 0) (logger_exception w e message).
Proof.
  exact (grows_logger_call Exception message
           (fun st => {| now := clock w st;
                         handled := Some {| exc_value := e;
                                            format_exception := format_exception_of w e |};
                   task_names := py_task_names w |})).
Qed.

Lemma grows_get_token (w : collaborators)
    (username password domain auth_api_url trace_id : string) :
  within (grows 1 0) (get_token w username password domain auth_api_url trace_id).
Proof.
  unfold get_token. cbv zeta.
  apply (grows_dbind 1 0 0 0).
  - intros st. eexists [_]. cbn [snd send_auth sent].
    rewrite !count_one. repeat split; cbn; lia.
  - intros [e|token]; [apply within_draise, grows_refl|].
    destruct (value_truthy token);
      [apply within_dret | apply within_draise]; apply grows_refl.
Qed.

Lemma grows_call_base_api_once (w : collaborators) (token : value)
    (trace_id base_api_url : string) :
  within (grows 0 1) (call_base_api_once w token trace_id base_api_url).
Proof.
  unfold call_base_api_once. cbv zeta.
  apply (grows_dbind 0 1 0 0).
  - intros st. eexists [_]. cbn [snd send_base sent].
    rewrite !count_one. repeat split; cbn; lia.
  - intros [e|content_type text js]; [apply within_draise, grows_refl|].
    destruct (_ && _).
    + destruct js; [apply within_draise | apply within_dret]; apply grows_refl.
    + apply (grows_dbind 0 0 0 0); [apply grows_logger_warning|].
      intros _. apply within_dret, grows_refl.
Qed.

(** The retry policy makes at most one attempt more than it has
    retries. *)
Lemma grows_retry {A} (w : collaborators) (retries : nat) (attempt : D A) :
  within (grows 0 1) attempt ->
  within (grows 0 (S retries)) (retry w retries attempt).
Proof.
  intros Ha. induction retries as [|n IH]; intros st; cbn [retry];
    specialize (Ha st); destruct (attempt st) as [[e|a] st1];
    try (apply (grows_weaken 0 1); [lia | lia | exact Ha]).
  destruct (is_RequestException w e);
    [|apply (grows_weaken 0 1); [lia | lia | exact Ha]].
  exact (grows_trans 0 1 0 (S n) _ _ _ Ha (IH st1)).
Qed.

Lemma grows_try_block (w : collaborators) (t : string) :
  within (grows 1 3) (try_block w t).
Proof.
  unfold try_block.
  apply grows_after_zero; [apply grows_logger_info | intros _].
  apply grows_after_zero.
  { destruct (SECRET_NAME w) as [name|];
      [destruct (nonempty name)|];
      first [apply within_dret | apply within_draise]; apply grows_refl. }
  intros secret_name.
  apply grows_after_zero.
  { unfold get_secrets. destruct (secret_value w secret_name);
      [apply within_draise | apply within_dret]; apply grows_refl. }
  intros secret.
  do 5 (apply grows_after_zero;
        [unfold getitem; destruct (secret !! _);
         [apply within_dret | apply within_draise]; apply grows_refl
        | intros ?]).
  apply grows_after_zero; [apply grows_logger_info | intros _].
  apply (grows_dbind 1 0 0 3); [apply grows_get_token | intros token].
  apply grows_after_zero; [apply grows_logger_info | intros _].
  apply (grows_dbind 0 3 0 0).
  { unfold call_base_api. apply grows_retry, grows_call_base_api_once. }
  intros protected.
  apply grows_after_zero; [apply grows_logger_info | intros _].
  apply within_dret, grows_refl.
Qed.

(** X16: in one invocation at most one request is sent to the
    authentication service and at most three to the protected API, whose
    attempts the retry policy bounds; nothing is taken from the requests
    sent before. *)
Theorem X16_requests_per_invocation (w : collaborators) (st : dstate) :
  exists requests,
    sent (lambda_handler w st).2 = sent st ++ requests
    /\ (count is_auth requests <= 1)%nat
    /\ (count is_base requests <= 3)%nat
    /\ (length requests <= 4)%nat.
Proof.
  destruct (lambda_handler_run w st) as (resp & st1 & Hrun & _ & Hcase).
  rewrite Hrun. rewrite cleanup_step. cbn [snd sent].
  assert (Hg : grows 1 3 (lift (setup_trace_id (proc w)) st).2 st1).
  { pose proof (grows_try_block w (invocation_id w)
                  (lift (setup_trace_id (proc w)) st).2) as Hb.
    destruct Hcase as [(data & Htry & _) | (e & st2 & Htry & -> & _)];
      rewrite Htry in Hb; cbn [snd] in Hb; [exact Hb|].
    exact (grows_trans 1 3 0 0 _ _ _ Hb (grows_logger_exception w e _ st2)). }
  destruct Hg as (requests & Hr & Ha & Hb).
  rewrite setup_step in Hr. cbn [snd sent] in Hr.
  exists requests. repeat split; try assumption.
  assert (Hlen : length requests
                 = (count is_auth requests + count is_base requests)%nat).
  { clear. unfold count, is_base.
    induction requests as [|r l IH]; [reflexivity|].
    rewrite !filter_cons. cbn [length].
    destruct (is_auth r); cbn [negb];
      repeat case_decide; try congruence; cbn [length]; lia. }
  lia.
Qed.

End DriverRequests.

Section DriverPaths.













































End DriverPaths.
